(** * Thomas Q-values: a shallow embedding of [thomasqvalue.py]

    The module computes the Q-value of Thomas (1963) for additions,
    subtractions and one-digit multiplications, one digit position at a
    time, and searches at random for a calculation whose Q-value lies in a
    requested interval.

    The source is Python 2 ([print] statement, [raw_input]): [/] on two
    integers is floor division and [None] compares below every number.

    Integers are [Z], text is [list ascii], a raised exception is a
    constructor of [result], Python's [None] is [option]'s [None].  The
    floating-point operations the code uses ([log10], [+] and the
    comparisons) are the fields of the class [PyFloat]; the definitions are
    written once over that class.  Statements that need no property of the
    numbers are proved for every instance; statements about magnitudes are
    proved on the instance of the real numbers, where [log10 x] is
    [ln x / ln 10] and rounding is left out. *)

From Stdlib Require Import ZArith List Bool Ascii String DecimalString Lia.
From Stdlib Require DecimalPos DecimalFacts.
From Stdlib Require Import Reals Lra.
Import ListNotations.

Local Open Scope Z_scope.

(** ** Exceptions and results *)

Inductive exn : Type :=
| ValueError
| IndexError.

Inductive result (A : Type) : Type :=
| Ok (a : A)
| Raise (e : exn).

Arguments Ok {A} a.
Arguments Raise {A} e.

Definition bind {A B : Type} (r : result A) (k : A -> result B) : result B :=
  match r with
  | Ok a => k a
  | Raise e => Raise e
  end.

Notation "x <- e ;; k" := (bind e (fun x => k))
  (at level 61, e at next level, right associativity).
Notation "' pat <- e ;; k" := (bind e (fun v => match v with pat => k end))
  (at level 61, pat pattern, e at next level, right associativity).

(** ** Numbers with a fractional part *)

Class PyFloat (F : Type) : Type := {
  of_int : Z -> F;          (* an integer used where a float is expected *)
  fadd : F -> F -> F;       (* [+] *)
  flog10 : Z -> F;          (* [math.log10] of a positive integer *)
  fle : F -> F -> bool      (* [<=] *)
}.

(** [math.log10] raises [ValueError] outside its domain. *)
Definition log10 {F} `{PyFloat F} (a : Z) : result F :=
  if 0 <? a then Ok (flog10 a) else Raise ValueError.

(** Python 2 orders [None] below every number. *)
Definition py_ge {F} `{PyFloat F} (q : option F) (lower : F) : bool :=
  match q with
  | Some v => fle lower v
  | None => false
  end.

Definition py_le {F} `{PyFloat F} (q : option F) (upper : F) : bool :=
  match q with
  | Some v => fle v upper
  | None => true
  end.

(** ** Text *)

Definition pystr : Type := list ascii.

(** [str(n)] of an integer: decimal digits, a leading [-] when negative. *)
Definition str (n : Z) : pystr :=
  list_ascii_of_string (NilZero.string_of_int (Z.to_int n)).

Definition len (s : pystr) : nat := List.length s.

(** [s.zfill(width)]: zeros on the left, after the sign when there is one. *)
Definition zfill (s : pystr) (width : nat) : pystr :=
  if (width <=? len s)%nat then s
  else
    let fill := repeat "0"%char (width - len s) in
    match s with
    | c :: rest =>
        if (Ascii.eqb c "+" || Ascii.eqb c "-")%bool then c :: fill ++ rest
        else fill ++ s
    | [] => fill
    end.

(** [s[d]] for a non-negative index. *)
Definition getitem (s : pystr) (d : nat) : result ascii :=
  match nth_error s d with
  | Some c => Ok c
  | None => Raise IndexError
  end.

(** [int(c)] of a one-character text. *)
Definition int (c : ascii) : result Z :=
  let n := Z.of_N (N_of_ascii c) in
  if ((48 <=? n) && (n <=? 57))%bool then Ok (n - 48) else Raise ValueError.

(** [int(s[d])] *)
Definition digit_at (s : pystr) (d : nat) : result Z :=
  c <- getitem s d ;; int c.

(** ** Loops *)

(** [range(n-1, -1, -1)] *)
Definition range_down (n : nat) : list nat := rev (seq 0 n).

(** [for x in xs: st = body(st, x)], stopping at the first exception. *)
Fixpoint for_each {S A : Type} (xs : list A) (body : S -> A -> result S)
  (st : S) : result S :=
  match xs with
  | [] => Ok st
  | x :: xs' => st' <- body st x ;; for_each xs' body st'
  end.

(** ** Q-values *)

Section QValues.

Context {F : Type} `{PyFloat F}.

(** The two operands as texts of one length (lines 94-101 and 135-142).
    The source pads when [len(n1) is not len(n2)]; [zfill] returns a text
    that is already long enough unchanged, so the outcome of that identity
    test on two equal lengths does not matter. *)
Definition align (n1 n2 : Z) : pystr * pystr * nat :=
  let s1 := str n1 in
  let s2 := str n2 in
  let length := Nat.max (len s1) (len s2) in
  if negb (len s1 =? len s2)%nat
  then (zfill s1 length, zfill s2 length, length)
  else (s1, s2, length).

(** One digit pair of an addition: the loop body of [q_addition]. *)
Definition q_addition_step (n1 n2 : pystr) (st : F * Z) (d : nat)
  : result (F * Z) :=
  let '(Q, carry) := st in
  d1 <- digit_at n1 d ;;
  d2 <- digit_at n2 d ;;
  if (((d1 =? 0) || (d2 =? 0)) && (carry =? 0))%bool then
    Ok (Q, carry)
  else if d1 + d2 + carry <? 10 then
    l <- log10 (d1 + d2 + d1 + d2 + carry) ;;
    Ok (fadd Q l, 0)
  else
    l <- log10 (d1 + d2 + d1 + d2 + 10 + carry) ;;
    Ok (fadd Q l, 1).

Definition q_addition (n1 n2 : Z) : result (option F) :=
  if negb ((n1 >? 0) && (n2 >? 0))%bool then Ok None
  else
    let '(s1, s2, length) := align n1 n2 in
    ' (Q, _) <- for_each (range_down length) (q_addition_step s1 s2)
                  (of_int 0, 0) ;;
    Ok (Some Q).

(** One digit pair of a subtraction: the loop body of [q_subtraction].
    The last [elif] of the source repeats the negation of the one before
    it, so nothing is left for a fourth case. *)
Definition q_subtraction_step (n1 n2 : pystr) (st : F * Z) (d : nat)
  : result (F * Z) :=
  let '(Q, carry) := st in
  d1 <- digit_at n1 d ;;
  d2 <- digit_at n2 d ;;
  if ((d2 =? 0) && (carry =? 0))%bool then
    Ok (Q, carry)
  else if d1 - d2 - carry >=? 0 then
    l <- log10 (d1 + d2 + Z.abs (d1 - d2) + carry) ;;
    Ok (fadd Q l, 0)
  else if d1 - d2 - carry <? 0 then
    l <- log10 (d1 + d2 + Z.abs (d1 - d2) + 10 + carry) ;;
    Ok (fadd Q l, 1)
  else
    Ok (Q, carry).

Definition q_subtraction (n1 n2 : Z) : result (option F) :=
  if negb ((n1 >? 0) && (n2 >? 0) && (n2 <? n1))%bool then Ok None
  else
    let '(s1, s2, length) := align n1 n2 in
    ' (Q, _) <- for_each (range_down length) (q_subtraction_step s1 s2)
                  (of_int 0, 0) ;;
    Ok (Some Q).

(** One digit of the multiplicand: the loop body of [q_multiplication]. *)
Definition q_multiplication_step (x : Z) (multiplicand : pystr)
  (st : F * Z) (d : nat) : result (F * Z) :=
  let '(Q, carry) := st in
  m <- digit_at multiplicand d ;;
  if x * m + carry <? 10 then
    l <- log10 (x + m + x * m + carry) ;;
    Ok (fadd Q l, 0)
  else if ((d =? 0)%nat && (carry =? 0))%bool then
    l <- log10 (x + m + x * m) ;;
    Ok (fadd Q l, carry)
  else
    let intermediateproduct := x * m + carry in
    let remainder := intermediateproduct - intermediateproduct mod 10 in
    let newdigit := intermediateproduct mod 10 in
    Q' <- (if intermediateproduct mod 10 =? 0 then
             l <- log10 (x + m + x * m + carry + intermediateproduct) ;;
             Ok (fadd Q l)
           else if (d =? 0)%nat then
             l <- log10 (x + m + x * m + carry + intermediateproduct) ;;
             Ok (fadd Q l)
           else if carry >? 0 then
             l <- log10 (x + m + x * m + carry + intermediateproduct
                         + remainder + newdigit) ;;
             Ok (fadd Q l)
           else
             l <- log10 (x + m + x * m + remainder + newdigit) ;;
             Ok (fadd Q l)) ;;
    Ok (Q', remainder / 10).

Definition q_multiplication (x multiplicand : Z) : result (option F) :=
  if ((x <? 2) || (x >? 9))%bool then Ok None
  else
    let multiplicand := str multiplicand in
    ' (Q, _) <- for_each (range_down (len multiplicand))
                  (q_multiplication_step x multiplicand) (of_int 0, 0) ;;
    Ok (Some Q).

End QValues.

(** ** Random draws *)

(** The process-wide generator of [random], as the sequence of raw values it
    will hand out and the number already used.  Every sequence of draws the
    code can see is the image of some [entropy]. *)
Record generator : Type := {
  entropy : nat -> N;
  cursor : nat
}.

(** [randint(a, b)]: some integer of [a..b]; [ValueError] on an empty
    range. *)
Definition randint (a b : Z) (g : generator) : result (Z * generator) :=
  if b <? a then Raise ValueError
  else Ok (a + Z.of_N (entropy g (cursor g)) mod (b - a + 1),
           {| entropy := entropy g; cursor := S (cursor g) |}).

(** ** Searching for a calculation *)

Section Search.

Context {F : Type} `{PyFloat F}.

(** The list of three the search functions return: [[n1, n2, q]], or
    [[None, None, None]]. *)
Definition calculation : Type := option Z * option Z * option F.

Definition no_calculation : calculation := (None, None, None).

(** [lower <= q and q <= upper], as the [if] of the search loops tests it. *)
Definition in_interval (lower upper : F) (q : option F) : bool :=
  (py_ge q lower && py_le q upper)%bool.

(** Lines 226-227. *)
Definition sample_addition (minint maxint : Z) (g : generator)
  : result (Z * Z * generator) :=
  ' (n1, g) <- randint minint maxint g ;;
  ' (n2, g) <- randint minint maxint g ;;
  Ok (n1, n2, g).

(** The loop of [get_calculation_addition] with [trials] rounds left.  The
    source calls [q_addition] up to three times on the same operands; the
    function has no state, so one call stands for them. *)
Fixpoint get_calculation_addition_loop (trials : nat) (lower upper : F)
  (minint maxint : Z) (g : generator) : result calculation :=
  match trials with
  | O => Ok no_calculation
  | S trials' =>
      ' (n1, n2, g') <- sample_addition minint maxint g ;;
      q <- q_addition n1 n2 ;;
      if in_interval lower upper q then Ok (Some n1, Some n2, q)
      else get_calculation_addition_loop trials' lower upper minint maxint g'
  end.

Definition get_calculation_addition (lower upper : F)
  (minint maxint ntrials : Z) (g : generator) : result calculation :=
  get_calculation_addition_loop (Z.to_nat ntrials) lower upper minint maxint g.

(** Lines 242-243. *)
Definition sample_subtraction (minint maxint : Z) (g : generator)
  : result (Z * Z * generator) :=
  ' (n1, g) <- randint minint maxint g ;;
  ' (n2, g) <- randint minint n1 g ;;
  Ok (n1, n2, g).

Fixpoint get_calculation_subtraction_loop (trials : nat) (lower upper : F)
  (minint maxint : Z) (g : generator) : result calculation :=
  match trials with
  | O => Ok no_calculation
  | S trials' =>
      ' (n1, n2, g') <- sample_subtraction minint maxint g ;;
      q <- q_subtraction n1 n2 ;;
      if in_interval lower upper q then Ok (Some n1, Some n2, q)
      else get_calculation_subtraction_loop trials' lower upper minint maxint g'
  end.

Definition get_calculation_subtraction (lower upper : F)
  (minint maxint ntrials : Z) (g : generator) : result calculation :=
  get_calculation_subtraction_loop (Z.to_nat ntrials) lower upper minint
    maxint g.

(** Lines 258-259. *)
Definition sample_multiplication (minint maxint : Z) (g : generator)
  : result (Z * Z * generator) :=
  ' (x, g) <- randint 2 9 g ;;
  ' (multiplicand, g) <- randint minint maxint g ;;
  Ok (x, multiplicand, g).

Fixpoint get_calculation_multiplication_loop (trials : nat) (lower upper : F)
  (minint maxint : Z) (g : generator) : result calculation :=
  match trials with
  | O => Ok no_calculation
  | S trials' =>
      ' (x, multiplicand, g') <- sample_multiplication minint maxint g ;;
      q <- q_multiplication x multiplicand ;;
      if in_interval lower upper q then Ok (Some x, Some multiplicand, q)
      else
        get_calculation_multiplication_loop trials' lower upper minint maxint g'
  end.

Definition get_calculation_multiplication (lower upper : F)
  (minint maxint ntrials : Z) (g : generator) : result calculation :=
  get_calculation_multiplication_loop (Z.to_nat ntrials) lower upper minint
    maxint g.

(** The operands the [k]-th round of [get_calculation_addition] draws
    (rounds counted from 0), when every round before it was rejected. *)
Fixpoint candidate_addition (k : nat) (minint maxint : Z) (g : generator)
  : result (Z * Z) :=
  ' (n1, n2, g') <- sample_addition minint maxint g ;;
  match k with
  | O => Ok (n1, n2)
  | S k' => candidate_addition k' minint maxint g'
  end.

End Search.

(** ** The real numbers as an instance *)

Definition Rlog10 (a : Z) : R := (ln (IZR a) / ln 10)%R.

Definition Rleb (x y : R) : bool := if Rle_dec x y then true else false.

#[export] Instance PyFloat_R : PyFloat R := {|
  of_int := IZR;
  fadd := Rplus;
  flog10 := Rlog10;
  fle := Rleb
|}.

(** ** Constellations as an instance

    The sums whose [log10] were added, in the order of the additions: what
    the run of a Q-value function adds up, without the arithmetic on
    fractions. *)

Inductive qexpr : Type :=
| QInt (z : Z)
| QLog10 (a : Z)
| QAdd (x y : qexpr).

#[export] Instance PyFloat_qexpr : PyFloat qexpr := {|
  of_int := QInt;
  fadd := QAdd;
  flog10 := QLog10;
  fle := fun _ _ => false
|}.

(** ** Characters that are decimal digits *)

Definition isdigit (c : ascii) : bool :=
  let n := Z.of_N (N_of_ascii c) in ((48 <=? n) && (n <=? 57))%bool.

Definition digits (s : pystr) : Prop := Forall (fun c => isdigit c = true) s.

(** ** Predicates used in the statements *)

(** The digit pairs the loops of [q_addition] and [q_subtraction] read, by
    position in the aligned texts (position 0 is the most significant). *)
Definition digit_pairs (n1 n2 : Z) : list (result Z * result Z) :=
  let '(s1, s2, length) := align n1 n2 in
  map (fun d => (digit_at s1 d, digit_at s2 d)) (seq 0 length).

(** Every position holds a 0 in one operand at least. *)
Definition zero_in_each_pair (n1 n2 : Z) : bool :=
  forallb (fun p => match p with
                    | (Ok d1, Ok d2) => (d1 =? 0) || (d2 =? 0)
                    | _ => false
                    end) (digit_pairs n1 n2).

(** No position holds two digits whose sum reaches 10. *)
Definition carry_free (n1 n2 : Z) : bool :=
  forallb (fun p => match p with
                    | (Ok d1, Ok d2) => d1 + d2 <? 10
                    | _ => false
                    end) (digit_pairs n1 n2).

(** The states of the loops.  [PQ] is a property of the accumulated value. *)

(** The state of the addition and subtraction loops: the carry is a bit. *)
Definition bit_state {F : Type} (PQ : F -> Prop) (st : F * Z) : Prop :=
  PQ (fst st) /\ (snd st = 0 \/ snd st = 1).

(** The state of the multiplication loop: the carry is a count of tens. *)
Definition tens_state {F : Type} (PQ : F -> Prop) (st : F * Z) : Prop :=
  PQ (fst st) /\ 0 <= snd st <= 8.

(** ** Generators used as examples *)

(** A generator whose first raw value is [first] and whose later ones are
    all [rest]. *)
Definition two_valued_generator (first rest : N) : generator :=
  {| entropy := fun i => match i with O => first | S _ => rest end;
     cursor := 0 |}.

(** A generator whose raw values are all 0. *)
Definition zero_generator : generator :=
  {| entropy := fun _ => 0%N; cursor := 0 |}.

(** ** Tactics *)

Ltac bool_facts :=
  repeat match goal with
  | E : _ = true |- _ =>
      first [ apply andb_prop in E as [? ?] | apply orb_prop in E
            | apply Z.eqb_eq in E | apply Z.ltb_lt in E | apply Z.geb_le in E
            | apply Z.gtb_lt in E | apply Nat.eqb_eq in E ]
  | E : _ = false |- _ =>
      first [ apply andb_false_iff in E | apply orb_false_iff in E as [? ?]
            | apply Z.eqb_neq in E | apply Z.ltb_ge in E
            | apply Z.gtb_ltb in E | apply Nat.eqb_neq in E ]
  end.

Ltac log10_defined :=
  unfold log10;
  match goal with
  | |- context [0 <? ?a] =>
      replace (0 <? a) with true by (symmetry; apply Z.ltb_lt; lia)
  end; simpl bind.

(** * Properties *)

(** ** Worked values

    Runs on the instance [qexpr], which keeps what was added. *)

Example align_11_2 : align 11 2 = (["1"; "1"]%char, ["0"; "2"]%char, 2%nat).
Proof. reflexivity. Qed.

Example zfill_sign : zfill (str (-12)) 5 = ["-"; "0"; "0"; "1"; "2"]%char.
Proof. reflexivity. Qed.

Example q_addition_10_1 : q_addition 10 1 = Ok (Some (QInt 0)).
Proof. reflexivity. Qed.

Example q_addition_11_1 :
  q_addition 11 1 = Ok (Some (QAdd (QInt 0) (QLog10 4))).
Proof. reflexivity. Qed.

Example q_addition_999_1 :
  q_addition 999 1
  = Ok (Some (QAdd (QAdd (QAdd (QInt 0) (QLog10 30)) (QLog10 29)) (QLog10 29))).
Proof. reflexivity. Qed.

Example q_addition_0_5 : q_addition (F := qexpr) 0 5 = Ok None.
Proof. reflexivity. Qed.

Example q_subtraction_5_5 : q_subtraction (F := qexpr) 5 5 = Ok None.
Proof. reflexivity. Qed.

Example q_multiplication_9_99 :
  q_multiplication 9 99 = Ok (Some (QAdd (QAdd (QInt 0) (QLog10 180)) (QLog10 196))).
Proof. reflexivity. Qed.

Example q_multiplication_10_5 : q_multiplication (F := qexpr) 10 5 = Ok None.
Proof. reflexivity. Qed.

(** [int('-')] raises [ValueError]. *)
Example q_multiplication_negative :
  q_multiplication (F := qexpr) 9 (-99) = Raise ValueError.
Proof. reflexivity. Qed.

(** ** The error monad and the loops *)

Lemma bind_Ok {A B : Type} (r : result A) (k : A -> result B) (b : B) :
  bind r k = Ok b -> exists a, r = Ok a /\ k a = Ok b.
Proof.
  destruct r as [a|e]; simpl; intros E; [exists a; auto | discriminate].
Qed.

(** A property of the state that every round keeps is kept by the loop, and
    the loop raises nothing when no round does. *)
Lemma for_each_invariant {S A : Type} (Inv : S -> Prop) (P : A -> Prop)
  (body : S -> A -> result S) :
  (forall st x, Inv st -> P x -> exists st', body st x = Ok st' /\ Inv st') ->
  forall xs st, Forall P xs -> Inv st ->
  exists st', for_each xs body st = Ok st' /\ Inv st'.
Proof.
  intros Hbody xs; induction xs as [|x xs IH]; intros st HP Hst; simpl.
  - exists st; auto.
  - inversion HP as [|? ? Hx Hxs]; subst.
    destruct (Hbody st x Hst Hx) as (st1 & E1 & I1).
    rewrite E1; simpl. apply IH; assumption.
Qed.

Lemma range_down_lt (n : nat) : Forall (fun d => (d < n)%nat) (range_down n).
Proof.
  unfold range_down. apply Forall_rev, Forall_forall.
  intros d Hd. apply in_seq in Hd. lia.
Qed.

Lemma Forall_firstn {A : Type} (P : A -> Prop) (k : nat) (xs : list A) :
  Forall P xs -> Forall P (firstn k xs).
Proof.
  intros HP; revert k; induction HP as [|x xs Hx _ IH]; intros [|k]; simpl;
    constructor; auto.
Qed.

(** ** Texts of digits *)

Lemma int_isdigit (c : ascii) :
  isdigit c = true -> exists v, int c = Ok v /\ 0 <= v <= 9.
Proof.
  unfold isdigit, int; cbv zeta. intros E; rewrite E.
  apply andb_prop in E as [E1 E2].
  exists (Z.of_N (N_of_ascii c) - 48); split; [reflexivity | lia].
Qed.

Lemma digits_uint (d : Decimal.uint) :
  digits (list_ascii_of_string (NilEmpty.string_of_uint d)).
Proof.
  induction d; simpl; constructor; auto.
Qed.

(** [str] of a natural number has digits only. *)
Lemma str_digits (n : Z) : 0 <= n -> digits (str n).
Proof.
  intros Hn. unfold str. destruct n as [|p|p]; [| |lia].
  - repeat constructor.
  - simpl. destruct (Pos.to_uint p); simpl.
    1: repeat constructor.
    all: constructor; [reflexivity | apply digits_uint].
Qed.

Lemma digits_repeat_0 (k : nat) : digits (repeat "0"%char k).
Proof.
  induction k; simpl; constructor; auto.
Qed.

(** Without a sign, [zfill] puts the zeros in front. *)
Lemma zfill_digits_eq (s : pystr) (width : nat) :
  digits s -> zfill s width = repeat "0"%char (width - len s) ++ s.
Proof.
  intros Hs. unfold zfill.
  destruct (width <=? len s)%nat eqn:E.
  - apply Nat.leb_le in E. replace (width - len s)%nat with 0%nat by lia.
    reflexivity.
  - destruct s as [|c rest]; [rewrite app_nil_r; reflexivity|].
    inversion Hs as [|? ? Hc _]; subst.
    destruct (Ascii.eqb c "+") eqn:E1.
    { apply Ascii.eqb_eq in E1; subst; discriminate. }
    destruct (Ascii.eqb c "-") eqn:E2.
    { apply Ascii.eqb_eq in E2; subst; discriminate. }
    reflexivity.
Qed.

Lemma zfill_digits (s : pystr) (width : nat) :
  digits s -> digits (zfill s width).
Proof.
  intros Hs. rewrite zfill_digits_eq by assumption.
  apply Forall_app; split; [apply digits_repeat_0 | assumption].
Qed.

Lemma zfill_len (s : pystr) (width : nat) :
  digits s -> len (zfill s width) = Nat.max width (len s).
Proof.
  intros Hs. rewrite zfill_digits_eq by assumption.
  unfold len. rewrite length_app, repeat_length. fold (len s). lia.
Qed.

(** The aligned operands have digits only and the length the loop runs
    over. *)
Lemma align_digits (n1 n2 : Z) (s1 s2 : pystr) (length : nat) :
  0 <= n1 -> 0 <= n2 -> align n1 n2 = (s1, s2, length) ->
  digits s1 /\ digits s2 /\ len s1 = length /\ len s2 = length.
Proof.
  intros H1 H2. unfold align.
  pose proof (str_digits n1 H1) as D1. pose proof (str_digits n2 H2) as D2.
  destruct (len (str n1) =? len (str n2))%nat eqn:E; simpl;
    intros X; inversion X; subst; clear X.
  - apply Nat.eqb_eq in E. repeat split; auto; lia.
  - repeat split; auto using zfill_digits; rewrite zfill_len by assumption; lia.
Qed.

Lemma digit_at_digits (s : pystr) (d : nat) :
  digits s -> (d < len s)%nat -> exists v, digit_at s d = Ok v /\ 0 <= v <= 9.
Proof.
  intros Hs Hd. unfold digit_at, getitem.
  destruct (nth_error s d) as [c|] eqn:E.
  - simpl. apply int_isdigit.
    apply (proj1 (Forall_forall _ s) Hs). eapply nth_error_In; eauto.
  - apply nth_error_None in E. unfold len in Hd. lia.
Qed.

(** ** Runs of the three accumulators *)

Section Runs.

Context {F : Type} `{PyFloat F}.

(** A property of the accumulated value that adding the [log10] of a
    constellation (a sum of at least 1) keeps. *)
Variable PQ : F -> Prop.
Hypothesis PQ_add : forall Q a, PQ Q -> 1 <= a -> PQ (fadd Q (flog10 a)).

Lemma q_addition_step_ok (s1 s2 : pystr) (st : F * Z) (d : nat) :
  digits s1 -> digits s2 -> (d < len s1)%nat -> (d < len s2)%nat ->
  bit_state PQ st ->
  exists st', q_addition_step s1 s2 st d = Ok st' /\ bit_state PQ st'.
Proof.
  intros D1 D2 L1 L2 [HQ Hc]. destruct st as [Q carry]; simpl in HQ, Hc.
  destruct (digit_at_digits s1 d D1 L1) as (d1 & E1 & B1).
  destruct (digit_at_digits s2 d D2 L2) as (d2 & E2 & B2).
  unfold q_addition_step. rewrite E1, E2; simpl bind.
  destruct (((d1 =? 0) || (d2 =? 0)) && (carry =? 0))%bool eqn:T.
  { eexists; split; [reflexivity | split; auto]. }
  destruct (d1 + d2 + carry <? 10) eqn:C; bool_facts; log10_defined;
    (eexists; split; [reflexivity | split; simpl; auto; apply PQ_add; auto; lia]).
Qed.

Lemma q_subtraction_step_ok (s1 s2 : pystr) (st : F * Z) (d : nat) :
  digits s1 -> digits s2 -> (d < len s1)%nat -> (d < len s2)%nat ->
  bit_state PQ st ->
  exists st', q_subtraction_step s1 s2 st d = Ok st' /\ bit_state PQ st'.
Proof.
  intros D1 D2 L1 L2 [HQ Hc]. destruct st as [Q carry]; simpl in HQ, Hc.
  destruct (digit_at_digits s1 d D1 L1) as (d1 & E1 & B1).
  destruct (digit_at_digits s2 d D2 L2) as (d2 & E2 & B2).
  unfold q_subtraction_step. rewrite E1, E2; simpl bind.
  destruct ((d2 =? 0) && (carry =? 0))%bool eqn:T.
  { eexists; split; [reflexivity | split; auto]. }
  destruct (d1 - d2 - carry >=? 0) eqn:C; bool_facts.
  - log10_defined.
    eexists; split; [reflexivity | split; simpl; auto; apply PQ_add; auto; lia].
  - rewrite Z.geb_leb in C. apply Z.leb_gt in C.
    rewrite (proj2 (Z.ltb_lt _ _) C). log10_defined.
    eexists; split; [reflexivity | split; simpl; auto; apply PQ_add; auto; lia].
Qed.

Lemma q_multiplication_step_ok (x : Z) (s : pystr) (st : F * Z) (d : nat) :
  2 <= x <= 9 -> digits s -> (d < len s)%nat -> tens_state PQ st ->
  exists st', q_multiplication_step x s st d = Ok st' /\ tens_state PQ st'.
Proof.
  intros Hx D L [HQ Hc]. destruct st as [Q carry]; simpl in HQ, Hc.
  destruct (digit_at_digits s d D L) as (m & E & B).
  unfold q_multiplication_step. rewrite E; simpl bind.
  assert (P : 0 <= x * m <= 81) by nia.
  assert (X : 2 <= x + m) by lia.
  generalize dependent (x * m); intros p P.
  destruct (p + carry <? 10) eqn:C1; bool_facts.
  { log10_defined.
    eexists; split; [reflexivity | split; simpl; [apply PQ_add; auto|]; lia]. }
  destruct ((d =? 0)%nat && (carry =? 0))%bool eqn:C2.
  { log10_defined.
    eexists; split; [reflexivity | split; simpl; [apply PQ_add; auto|]; lia]. }
  cbv zeta.
  pose proof (Z.mod_pos_bound (p + carry) 10 ltac:(lia)) as M.
  assert (R : 0 <= (p + carry - (p + carry) mod 10) / 10 <= 8).
  { Z.to_euclidean_division_equations; lia. }
  generalize dependent ((p + carry - (p + carry) mod 10) / 10); intros t R.
  generalize dependent ((p + carry) mod 10); intros r M.
  destruct (r =? 0);
    [| destruct (d =? 0)%nat; [| destruct (carry >? 0)]];
    log10_defined;
    (eexists; split; [reflexivity | split; simpl; [apply PQ_add; auto; lia | lia]]).
Qed.

(** A run of [q_addition] on positive operands raises nothing and returns a
    number. *)
Lemma q_addition_run (n1 n2 : Z) :
  0 < n1 -> 0 < n2 -> PQ (of_int 0) ->
  exists Q, q_addition n1 n2 = Ok (Some Q) /\ PQ Q.
Proof.
  intros H1 H2 P0. unfold q_addition.
  replace (negb ((n1 >? 0) && (n2 >? 0))) with false
    by (symmetry; apply negb_false_iff, andb_true_intro; split;
        apply Z.gtb_lt; lia).
  destruct (align n1 n2) as [[s1 s2] length] eqn:A.
  destruct (align_digits n1 n2 s1 s2 length ltac:(lia) ltac:(lia) A)
    as (D1 & D2 & L1 & L2).
  destruct (for_each_invariant (bit_state PQ) (fun d => (d < length)%nat)
              (q_addition_step s1 s2)) with (xs := range_down length)
              (st := (of_int 0, 0)) as ([Q c] & E & I & _).
  - intros st d I Hd. apply q_addition_step_ok; auto; lia.
  - apply range_down_lt.
  - split; simpl; auto.
  - rewrite E; simpl. exists Q; auto.
Qed.

Lemma q_subtraction_run (n1 n2 : Z) :
  0 < n2 -> n2 < n1 -> PQ (of_int 0) ->
  exists Q, q_subtraction n1 n2 = Ok (Some Q) /\ PQ Q.
Proof.
  intros H2 H1 P0. unfold q_subtraction.
  replace (negb ((n1 >? 0) && (n2 >? 0) && (n2 <? n1))) with false
    by (symmetry; apply negb_false_iff; repeat (apply andb_true_intro; split);
        [apply Z.gtb_lt | apply Z.gtb_lt | apply Z.ltb_lt]; lia).
  destruct (align n1 n2) as [[s1 s2] length] eqn:A.
  destruct (align_digits n1 n2 s1 s2 length ltac:(lia) ltac:(lia) A)
    as (D1 & D2 & L1 & L2).
  destruct (for_each_invariant (bit_state PQ) (fun d => (d < length)%nat)
              (q_subtraction_step s1 s2)) with (xs := range_down length)
              (st := (of_int 0, 0)) as ([Q c] & E & I & _).
  - intros st d I Hd. apply q_subtraction_step_ok; auto; lia.
  - apply range_down_lt.
  - split; simpl; auto.
  - rewrite E; simpl. exists Q; auto.
Qed.

End Runs.

(** ** Validity of the operands of [q_addition] *)

(** C3: [q_addition n1 n2] is [None] exactly when [n1 <= 0] or [n2 <= 0];
    it never raises an exception; and for [n1 > 0] and [n2 > 0] it returns a
    number, which [Some] keeps apart from [None] even when it is 0. *)
Theorem q_addition_None_iff {F : Type} `{PyFloat F} (n1 n2 : Z) :
  (q_addition n1 n2 = Ok None <-> n1 <= 0 \/ n2 <= 0) /\
  (forall e, q_addition n1 n2 <> Raise e) /\
  (0 < n1 -> 0 < n2 -> exists Q : F, q_addition n1 n2 = Ok (Some Q)).
Proof.
  assert (T : 0 < n1 -> 0 < n2 -> exists Q : F, q_addition n1 n2 = Ok (Some Q)).
  { intros H1 H2.
    destruct (q_addition_run (fun _ => True) (fun _ _ _ _ => I) n1 n2 H1 H2 I)
      as (Q & E & _).
    exists Q; exact E. }
  split; [split|split; [|exact T]].
  - intros E. destruct (Z_le_gt_dec n1 0) as [|G1]; [left; assumption|].
    destruct (Z_le_gt_dec n2 0) as [|G2]; [right; assumption|].
    destruct T as (Q & EQ); [lia | lia |]. congruence.
  - intros Hn. unfold q_addition.
    replace ((n1 >? 0) && (n2 >? 0))%bool with false; [reflexivity|].
    symmetry; apply andb_false_iff.
    destruct Hn; [left | right]; rewrite Z.gtb_ltb; apply Z.ltb_ge; assumption.
  - intros e E. destruct (Z_le_gt_dec n1 0) as [L1|G1].
    + unfold q_addition in E.
      replace (n1 >? 0) with false in E
        by (symmetry; rewrite Z.gtb_ltb; apply Z.ltb_ge; assumption).
      discriminate.
    + destruct (Z_le_gt_dec n2 0) as [L2|G2].
      * unfold q_addition in E.
        replace (n2 >? 0) with false in E
          by (symmetry; rewrite Z.gtb_ltb; apply Z.ltb_ge; assumption).
        rewrite andb_false_r in E. discriminate.
      * destruct T as (Q & EQ); [lia | lia |]. congruence.
Qed.

Lemma q_addition_None_iff_witness :
  exists Q : R, q_addition 10 1 = Ok (Some Q).
Proof.
  apply (proj2 (proj2 (q_addition_None_iff 10 1))); lia.
Defined.

(** ** Sign of the Q-value of an addition *)

Lemma ln_10_pos : (0 < ln 10)%R.
Proof.
  rewrite <- ln_1. apply ln_increasing; lra.
Qed.

Lemma Rlog10_nonneg (a : Z) : 1 <= a -> (0 <= Rlog10 a)%R.
Proof.
  intros Ha. unfold Rlog10.
  apply Rmult_le_pos; [| left; apply Rinv_0_lt_compat, ln_10_pos].
  apply IZR_le in Ha. destruct Ha as [Ha | Ha].
  - left. rewrite <- ln_1. apply ln_increasing; lra.
  - rewrite <- Ha, ln_1. lra.
Qed.

(** C8: for [n1 > 0] and [n2 > 0] the Q-value of the addition is at least 0.
    First conjunct: whatever holds of the initial 0 and is kept by adding the
    [log10] of a sum of at least 1 holds of the result, for every kind of
    number: no other addition happens.  Second conjunct: on the real numbers
    the result is non-negative. *)
Theorem q_addition_nonneg (n1 n2 : Z) :
  0 < n1 -> 0 < n2 ->
  (forall (F : Type) (HF : PyFloat F) (PQ : F -> Prop),
      (forall Q a, PQ Q -> 1 <= a -> PQ (fadd Q (flog10 a))) ->
      PQ (of_int 0) ->
      exists Q : F, q_addition n1 n2 = Ok (Some Q) /\ PQ Q) /\
  (exists Q : R, q_addition n1 n2 = Ok (Some Q) /\ (0 <= Q)%R).
Proof.
  intros H1 H2. split.
  - intros F HF PQ Hadd H0. apply q_addition_run; assumption.
  - apply (q_addition_run (fun Q : R => (0 <= Q)%R)); auto.
    + intros Q a HQ Ha. simpl. pose proof (Rlog10_nonneg a Ha). lra.
    + simpl. lra.
Qed.

Lemma q_addition_nonneg_witness :
  exists Q : R, q_addition 999 1 = Ok (Some Q) /\ (0 <= Q)%R.
Proof.
  apply (proj2 (q_addition_nonneg 999 1 ltac:(lia) ltac:(lia))).
Defined.

(** ** Additions in which nothing is computed *)

Lemma digit_pairs_at (n1 n2 : Z) (s1 s2 : pystr) (length d : nat)
  (P : result Z * result Z -> bool) :
  align n1 n2 = (s1, s2, length) ->
  forallb P (digit_pairs n1 n2) = true -> (d < length)%nat ->
  P (digit_at s1 d, digit_at s2 d) = true.
Proof.
  intros A HP Hd. unfold digit_pairs in HP. rewrite A in HP.
  apply (proj1 (forallb_forall _ _) HP).
  apply (in_map (fun d => (digit_at s1 d, digit_at s2 d))).
  apply in_seq. lia.
Qed.

Lemma Rlog10_4_pos : (0 < Rlog10 4)%R.
Proof.
  unfold Rlog10. apply Rmult_lt_0_compat.
  - rewrite <- ln_1. apply ln_increasing; lra.
  - apply Rinv_0_lt_compat, ln_10_pos.
Qed.

(** C2: when every position of the aligned operands holds a 0 in [n1] or in
    [n2], no carry arises and [q_addition n1 n2] is the 0 it started from;
    so for 10 + 1, whereas 1 + 1 gives [log10 4], which is not 0. *)
Theorem q_addition_zero :
  (forall (F : Type) (HF : PyFloat F) (n1 n2 : Z),
      0 < n1 -> 0 < n2 -> zero_in_each_pair n1 n2 = true ->
      q_addition n1 n2 = Ok (Some (of_int 0))) /\
  q_addition 10 1 = Ok (Some 0%R) /\
  (exists Q : R,
      q_addition 1 1 = Ok (Some Q) /\ Q = Rlog10 4 /\ Q <> 0%R).
Proof.
  split; [|split].
  - intros F HF n1 n2 H1 H2 Z0. unfold q_addition.
    replace (negb ((n1 >? 0) && (n2 >? 0))) with false
      by (symmetry; apply negb_false_iff, andb_true_intro; split;
          apply Z.gtb_lt; lia).
    destruct (align n1 n2) as [[s1 s2] length] eqn:A.
    destruct (for_each_invariant (fun st : F * Z => st = (of_int 0, 0))
                (fun d => (d < length)%nat) (q_addition_step s1 s2))
      with (xs := range_down length) (st := (@of_int F HF 0, 0))
      as (st & E & I).
    + intros st d -> Hd. exists (of_int 0, 0); split; [|reflexivity].
      pose proof (digit_pairs_at n1 n2 s1 s2 length d _ A Z0 Hd) as P.
      unfold q_addition_step. simpl in P.
      destruct (digit_at s1 d) as [d1|]; [|discriminate].
      destruct (digit_at s2 d) as [d2|]; [|discriminate].
      simpl. rewrite P. reflexivity.
    + apply range_down_lt.
    + reflexivity.
    + rewrite E, I. reflexivity.
  - reflexivity.
  - exists (0 + Rlog10 4)%R. split; [reflexivity|].
    pose proof Rlog10_4_pos. split; lra.
Qed.

Lemma q_addition_zero_witness :
  q_addition 1020 304 = Ok (Some 0%R).
Proof.
  apply (proj1 q_addition_zero R PyFloat_R 1020 304); [lia | lia | reflexivity].
Defined.

(** ** Exchanging the operands of an addition *)

Lemma for_each_ext_in {S A : Type} (f g : S -> A -> result S) (xs : list A) :
  (forall st x, In x xs -> f st x = g st x) ->
  forall st, for_each xs f st = for_each xs g st.
Proof.
  induction xs as [|x xs IH]; intros E st; simpl; auto.
  rewrite E by (left; reflexivity).
  destruct (g st x); simpl; auto.
  apply IH. intros; apply E; right; assumption.
Qed.

Lemma align_sym (n1 n2 : Z) :
  align n2 n1 = let '(s1, s2, length) := align n1 n2 in (s2, s1, length).
Proof.
  unfold align. rewrite (Nat.max_comm (len (str n2))), (Nat.eqb_sym (len (str n2))).
  destruct (len (str n1) =? len (str n2))%nat; reflexivity.
Qed.

Lemma q_addition_step_sym {F : Type} `{PyFloat F} (s1 s2 : pystr)
  (st : F * Z) (d : nat) (d1 d2 : Z) :
  digit_at s1 d = Ok d1 -> digit_at s2 d = Ok d2 ->
  q_addition_step s1 s2 st d = q_addition_step s2 s1 st d.
Proof.
  intros E1 E2. unfold q_addition_step. destruct st as [Q carry].
  rewrite E1, E2; simpl bind.
  rewrite (orb_comm (d2 =? 0)).
  replace (d2 + d1 + carry) with (d1 + d2 + carry) by lia.
  replace (d2 + d1 + d2 + d1 + carry) with (d1 + d2 + d1 + d2 + carry) by lia.
  replace (d2 + d1 + d2 + d1 + 10 + carry)
    with (d1 + d2 + d1 + d2 + 10 + carry) by lia.
  reflexivity.
Qed.

(** The Q-value of an addition does not depend on the order of the
    operands, whatever they are. *)
Lemma q_addition_comm {F : Type} `{PyFloat F} (n1 n2 : Z) :
  q_addition n1 n2 = q_addition n2 n1.
Proof.
  unfold q_addition. rewrite (andb_comm (n2 >? 0)).
  destruct ((n1 >? 0) && (n2 >? 0))%bool eqn:G; simpl; [|reflexivity].
  bool_facts. rewrite (align_sym n1 n2).
  destruct (align n1 n2) as [[s1 s2] length] eqn:A.
  destruct (align_digits n1 n2 s1 s2 length ltac:(lia) ltac:(lia) A)
    as (D1 & D2 & L1 & L2).
  rewrite (for_each_ext_in (q_addition_step s2 s1) (q_addition_step s1 s2));
    [reflexivity|].
  intros st d Hd.
  assert (Hlt : (d < length)%nat).
  { apply (proj1 (Forall_forall _ _) (range_down_lt length)); assumption. }
  destruct (digit_at_digits s1 d D1 ltac:(lia)) as (d1 & E1 & _).
  destruct (digit_at_digits s2 d D2 ltac:(lia)) as (d2 & E2 & _).
  symmetry. eapply q_addition_step_sym; eauto.
Qed.

(** C9: for [n1], [n2] > 0 with as many digits each and no position whose
    two digits add up to 10 or more, [q_addition n1 n2] and
    [q_addition n2 n1] are the same. *)
Theorem q_addition_symmetric {F : Type} `{PyFloat F} (n1 n2 : Z) :
  0 < n1 -> 0 < n2 -> len (str n1) = len (str n2) ->
  carry_free n1 n2 = true ->
  q_addition n1 n2 = q_addition n2 n1.
Proof.
  intros _ _ _ _. apply q_addition_comm.
Qed.

Lemma q_addition_symmetric_witness :
  q_addition (F := R) 1234 4321 = q_addition 4321 1234.
Proof.
  apply (q_addition_symmetric 1234 4321); [lia | lia | reflexivity | reflexivity].
Defined.

(** ** The digit a subtraction step does not look at *)

Lemma int_range (c : ascii) (v : Z) : int c = Ok v -> 0 <= v <= 9.
Proof.
  unfold int; cbv zeta.
  destruct ((48 <=? Z.of_N (N_of_ascii c)) && (Z.of_N (N_of_ascii c) <=? 57))%bool
    eqn:E; [|discriminate].
  intros X; inversion X; subst. apply andb_prop in E as [E1 E2]. lia.
Qed.

Lemma digit_at_range (s : pystr) (d : nat) (v : Z) :
  digit_at s d = Ok v -> 0 <= v <= 9.
Proof.
  unfold digit_at. intros E. apply bind_Ok in E as (c & _ & E).
  eapply int_range; eauto.
Qed.

(** C10: a subtraction step that is not skipped ([d2 <> 0] or a borrow came
    in) adds [log10 (2*d1 + carry)] when it produces no borrow, whatever
    [d2] is, and [log10 (2*d2 + 10 + carry)] when it produces one, whatever
    [d1] is.  The incoming borrow is a bit, as it is all along a run of
    [q_subtraction]. *)
Theorem q_subtraction_step_one_digit {F : Type} `{PyFloat F}
  (s1 s2 : pystr) (Q : F) (carry : Z) (d : nat) (d1 d2 : Z) :
  digit_at s1 d = Ok d1 -> digit_at s2 d = Ok d2 ->
  carry = 0 \/ carry = 1 ->
  ~ (d2 = 0 /\ carry = 0) ->
  (d1 - d2 - carry >= 0 ->
     d1 + d2 + Z.abs (d1 - d2) + carry = 2 * d1 + carry /\
     q_subtraction_step s1 s2 (Q, carry) d
     = Ok (fadd Q (flog10 (2 * d1 + carry)), 0)) /\
  (d1 - d2 - carry < 0 ->
     d1 + d2 + Z.abs (d1 - d2) + 10 + carry = 2 * d2 + 10 + carry /\
     q_subtraction_step s1 s2 (Q, carry) d
     = Ok (fadd Q (flog10 (2 * d2 + 10 + carry)), 1)).
Proof.
  intros E1 E2 Hc NT.
  pose proof (digit_at_range _ _ _ E1) as B1.
  pose proof (digit_at_range _ _ _ E2) as B2.
  unfold q_subtraction_step. rewrite E1, E2; simpl bind.
  replace ((d2 =? 0) && (carry =? 0))%bool with false
    by (symmetry; apply andb_false_iff;
        destruct (Z.eqb_spec d2 0); [right; apply Z.eqb_neq; lia | left; reflexivity]).
  split; intros C.
  - assert (A : d1 + d2 + Z.abs (d1 - d2) + carry = 2 * d1 + carry) by lia.
    split; [exact A|].
    replace (d1 - d2 - carry >=? 0) with true
      by (symmetry; apply Z.geb_le; lia).
    rewrite A. log10_defined. reflexivity.
  - assert (A : d1 + d2 + Z.abs (d1 - d2) + 10 + carry = 2 * d2 + 10 + carry)
      by lia.
    split; [exact A|].
    replace (d1 - d2 - carry >=? 0) with false
      by (symmetry; rewrite Z.geb_leb; apply Z.leb_gt; lia).
    replace (d1 - d2 - carry <? 0) with true
      by (symmetry; apply Z.ltb_lt; lia).
    rewrite A. log10_defined. reflexivity.
Qed.

Lemma q_subtraction_step_one_digit_witness :
  q_subtraction_step (F := R) (str 11) (zfill (str 2) 2) (0%R, 0) 1
  = Ok (fadd 0%R (flog10 (2 * 2 + 10 + 0)), 1).
Proof.
  apply (proj2 (q_subtraction_step_one_digit (str 11) (zfill (str 2) 2)
                  0%R 0 1 1 2 eq_refl eq_refl (or_introl eq_refl)
                  ltac:(intros [X _]; discriminate X)));
    reflexivity.
Defined.

(** ** A worked subtraction *)

Lemma pow_42_bounds : 0 < 10 ^ 1623 < 42 ^ 1000 /\ 0 < 42 ^ 1000 < 10 ^ 1624.
Proof.
  split; split; vm_compute; reflexivity.
Qed.

Lemma ln_IZR_pow (a n : Z) :
  0 < a -> 0 <= n -> (ln (IZR (a ^ n)) = IZR n * ln (IZR a))%R.
Proof.
  intros Ha Hn. rewrite <- (Z2Nat.id n Hn) at 1.
  rewrite <- pow_IZR, ln_pow by (apply IZR_lt in Ha; lra).
  rewrite INR_IZR_INZ, Z2Nat.id by assumption. reflexivity.
Qed.

Lemma Rlog10_42_bounds : (1623 / 1000 < Rlog10 42 < 1624 / 1000)%R.
Proof.
  pose proof ln_10_pos as L10.
  destruct pow_42_bounds as [[P1 P2] [P3 P4]].
  assert (B1 : (1623 * ln 10 < 1000 * ln (IZR 42))%R).
  { rewrite <- (ln_IZR_pow 10 1623), <- (ln_IZR_pow 42 1000)
      by (try reflexivity; discriminate).
    apply ln_increasing; apply IZR_lt; assumption. }
  assert (B2 : (1000 * ln (IZR 42) < 1624 * ln 10)%R).
  { rewrite <- (ln_IZR_pow 10 1624), <- (ln_IZR_pow 42 1000)
      by (try reflexivity; discriminate).
    apply ln_increasing; apply IZR_lt; assumption. }
  assert (E : (ln (IZR 42) = Rlog10 42 * ln 10)%R)
    by (unfold Rlog10; field; lra).
  rewrite E in B1, B2.
  split; apply Rmult_lt_reg_r with (r := ln 10); try assumption; lra.
Qed.

Lemma Rlog10_mult (a b : Z) :
  0 < a -> 0 < b -> (Rlog10 a + Rlog10 b = Rlog10 (a * b))%R.
Proof.
  intros Ha Hb. unfold Rlog10. apply IZR_lt in Ha, Hb.
  rewrite mult_IZR, ln_mult by assumption.
  pose proof ln_10_pos. field. lra.
Qed.

(** C1: [q_subtraction 11 2].  The operands are aligned as "11" and "02".
    The units (index 1 of the texts) are [d1 = 1], [d2 = 2] with no borrow
    coming in: a borrow is needed and [log10 (1+2+1+10+0)] is added.  The
    tens (index 0) are [d1 = 1], [d2 = 0] with the borrow coming in: the
    step is not skipped although [d2 = 0], and [log10 (1+0+1+1)] is added.
    The result is [log10 14 + log10 3], between 1.623 and 1.624. *)
Theorem q_subtraction_11_2 :
  align 11 2 = (["1"; "1"]%char, ["0"; "2"]%char, 2%nat) /\
  digit_at ["1"; "1"]%char 1 = Ok 1 /\ digit_at ["0"; "2"]%char 1 = Ok 2 /\
  q_subtraction_step ["1"; "1"]%char ["0"; "2"]%char (0%R, 0) 1
  = Ok ((0 + Rlog10 (1 + 2 + 1 + 10 + 0))%R, 1) /\
  digit_at ["1"; "1"]%char 0 = Ok 1 /\ digit_at ["0"; "2"]%char 0 = Ok 0 /\
  q_subtraction_step ["1"; "1"]%char ["0"; "2"]%char
    ((0 + Rlog10 14)%R, 1) 0
  = Ok ((0 + Rlog10 14 + Rlog10 (1 + 0 + 1 + 1))%R, 0) /\
  exists Q : R,
    q_subtraction 11 2 = Ok (Some Q) /\
    Q = (Rlog10 14 + Rlog10 3)%R /\
    (Rabs (Q - (Rlog10 14 + Rlog10 3)) < / 1000000000)%R /\
    (1623 / 1000 < Q < 1624 / 1000)%R.
Proof.
  repeat (split; [reflexivity|]).
  exists (0 + Rlog10 14 + Rlog10 3)%R.
  split; [reflexivity|].
  assert (E : (0 + Rlog10 14 + Rlog10 3 = Rlog10 14 + Rlog10 3)%R) by lra.
  split; [exact E|]. split.
  - rewrite E.
    replace (Rlog10 14 + Rlog10 3 - (Rlog10 14 + Rlog10 3))%R with 0%R by lra.
    rewrite Rabs_R0. lra.
  - rewrite E, Rlog10_mult by lia. exact Rlog10_42_bounds.
Qed.

(** ** The carry of a multiplication *)

(** C4: for [2 <= x <= 9] and a multiplicand that is not negative, after any
    number [k] of rounds of the loop of [q_multiplication] (all of them when
    [k] is the number of digits or more) no exception was raised and the
    carry is an integer from 0 to 8.  It starts at 0 ([k = 0]); the division
    [remainder / 10] that updates it is the floor division of two
    integers. *)
Theorem q_multiplication_carry_range {F : Type} `{PyFloat F}
  (x multiplicand : Z) (k : nat) :
  2 <= x <= 9 -> 0 <= multiplicand ->
  exists (Q : F) (carry : Z),
    for_each (firstn k (range_down (len (str multiplicand))))
      (q_multiplication_step x (str multiplicand)) (of_int 0, 0)
    = Ok (Q, carry) /\
    0 <= carry <= 8.
Proof.
  intros Hx Hm.
  destruct (for_each_invariant (tens_state (fun _ => True))
              (fun d => (d < len (str multiplicand))%nat)
              (q_multiplication_step x (str multiplicand)))
    with (xs := firstn k (range_down (len (str multiplicand))))
         (st := (@of_int F _ 0, 0)) as ([Q carry] & E & _ & B).
  - intros st d I Hd.
    apply q_multiplication_step_ok; auto using str_digits.
  - apply Forall_firstn, range_down_lt.
  - split; simpl; [exact I | lia].
  - exists Q, carry. split; assumption.
Qed.

Lemma q_multiplication_carry_range_witness :
  exists (Q : R) (carry : Z),
    for_each (firstn 1 (range_down (len (str 99))))
      (q_multiplication_step 9 (str 99)) (of_int 0, 0)
    = Ok (Q, carry) /\
    0 <= carry <= 8.
Proof.
  apply (q_multiplication_carry_range 9 99 1); lia.
Defined.

(** The whole loop is the case where [k] is the number of digits. *)
Lemma q_multiplication_run {F : Type} `{PyFloat F} (x multiplicand : Z) :
  2 <= x <= 9 -> 0 <= multiplicand ->
  exists Q : F, q_multiplication x multiplicand = Ok (Some Q).
Proof.
  intros Hx Hm. unfold q_multiplication.
  replace ((x <? 2) || (x >? 9))%bool with false
    by (symmetry; apply orb_false_iff; split;
        [apply Z.ltb_ge | rewrite Z.gtb_ltb; apply Z.ltb_ge]; lia).
  destruct (for_each_invariant (tens_state (fun _ => True))
              (fun d => (d < len (str multiplicand))%nat)
              (q_multiplication_step x (str multiplicand)))
    with (xs := range_down (len (str multiplicand)))
         (st := (@of_int F _ 0, 0)) as ([Q carry] & E & _).
  - intros st d I Hd.
    apply q_multiplication_step_ok; auto using str_digits.
  - apply range_down_lt.
  - split; simpl; [exact I | lia].
  - rewrite E. exists Q; reflexivity.
Qed.

(** ** Random draws *)

Lemma randint_range (a b : Z) (g g' : generator) (r : Z) :
  randint a b g = Ok (r, g') -> a <= r <= b.
Proof.
  unfold randint. destruct (b <? a) eqn:E; [discriminate|].
  apply Z.ltb_ge in E. intros X; inversion X; subst; clear X.
  pose proof (Z.mod_pos_bound (Z.of_N (entropy g (cursor g))) (b - a + 1)
                ltac:(lia)).
  lia.
Qed.

Lemma randint_Ok (a b : Z) (g : generator) :
  a <= b -> exists r g', randint a b g = Ok (r, g').
Proof.
  intros Hab. unfold randint.
  replace (b <? a) with false by (symmetry; apply Z.ltb_ge; assumption).
  eexists; eexists; reflexivity.
Qed.

(** Every integer of the range is drawn by some generator. *)
Lemma randint_any (a b r : Z) (g : generator) :
  a <= r <= b ->
  exists g0 g', cursor g0 = cursor g /\ randint a b g0 = Ok (r, g').
Proof.
  intros Hr.
  exists {| entropy := fun _ => Z.to_N (r - a); cursor := cursor g |}.
  unfold randint; simpl.
  replace (b <? a) with false by (symmetry; apply Z.ltb_ge; lia).
  eexists; split; [reflexivity|].
  rewrite Z2N.id, Z.mod_small by lia.
  replace (a + (r - a)) with r by lia. reflexivity.
Qed.

Lemma sample_addition_range (minint maxint : Z) (g g' : generator)
  (n1 n2 : Z) :
  sample_addition minint maxint g = Ok (n1, n2, g') ->
  minint <= n1 <= maxint /\ minint <= n2 <= maxint.
Proof.
  unfold sample_addition. intros E.
  apply bind_Ok in E as ([r1 g1] & E1 & E).
  apply bind_Ok in E as ([r2 g2] & E2 & E).
  inversion E; subst; clear E.
  split; eapply randint_range; eauto.
Qed.

Lemma sample_addition_Ok (minint maxint : Z) (g : generator) :
  minint <= maxint ->
  exists n1 n2 g', sample_addition minint maxint g = Ok (n1, n2, g').
Proof.
  intros Hm. unfold sample_addition.
  destruct (randint_Ok minint maxint g Hm) as (r1 & g1 & E1).
  rewrite E1; simpl.
  destruct (randint_Ok minint maxint g1 Hm) as (r2 & g2 & E2).
  rewrite E2; simpl. eexists; eexists; eexists; reflexivity.
Qed.

Lemma sample_subtraction_range (minint maxint : Z) (g g' : generator)
  (n1 n2 : Z) :
  sample_subtraction minint maxint g = Ok (n1, n2, g') ->
  minint <= n1 <= maxint /\ minint <= n2 <= n1.
Proof.
  unfold sample_subtraction. intros E.
  apply bind_Ok in E as ([r1 g1] & E1 & E).
  apply bind_Ok in E as ([r2 g2] & E2 & E).
  inversion E; subst; clear E.
  split; eapply randint_range; eauto.
Qed.

(** ** Additions of two digits *)

Lemma q_addition_one_digit {F : Type} `{PyFloat F} (n1 n2 : Z) :
  1 <= n1 <= 9 -> 1 <= n2 <= 9 ->
  q_addition n1 n2
  = Ok (Some (fadd (of_int 0)
                (flog10 (if n1 + n2 <? 10 then n1 + n2 + n1 + n2 + 0
                         else n1 + n2 + n1 + n2 + 10 + 0)))).
Proof.
  intros H1 H2.
  assert (C1 : n1 = 1 \/ n1 = 2 \/ n1 = 3 \/ n1 = 4 \/ n1 = 5 \/ n1 = 6 \/
               n1 = 7 \/ n1 = 8 \/ n1 = 9) by lia.
  assert (C2 : n2 = 1 \/ n2 = 2 \/ n2 = 3 \/ n2 = 4 \/ n2 = 5 \/ n2 = 6 \/
               n2 = 7 \/ n2 = 8 \/ n2 = 9) by lia.
  clear H1 H2.
  repeat (destruct C1 as [C1 | C1]); subst n1;
    repeat (destruct C2 as [C2 | C2]); subst n2; reflexivity.
Qed.

Lemma Rlog10_lt_2 (a : Z) : 0 < a < 100 -> (Rlog10 a < 2)%R.
Proof.
  intros [H0 H1]. pose proof ln_10_pos as L. unfold Rlog10.
  apply IZR_lt in H0, H1.
  assert (E : (ln 100 = 2 * ln 10)%R).
  { replace 100%R with (10 * 10)%R by lra. rewrite ln_mult by lra. lra. }
  pose proof (ln_increasing _ _ H0 H1) as I. rewrite E in I.
  apply Rmult_lt_reg_r with (r := ln 10); [assumption|].
  unfold Rdiv. rewrite Rmult_assoc, Rinv_l by lra. lra.
Qed.

Lemma Rleb_false (x y : R) : (y < x)%R -> Rleb x y = false.
Proof.
  intros L. unfold Rleb. destruct (Rle_dec x y); [lra | reflexivity].
Qed.

Lemma Rleb_true (x y : R) : (x <= y)%R -> Rleb x y = true.
Proof.
  intros L. unfold Rleb. destruct (Rle_dec x y); [reflexivity | lra].
Qed.

Lemma Rleb_le (x y : R) : Rleb x y = true -> (x <= y)%R.
Proof.
  unfold Rleb. destruct (Rle_dec x y); [auto | discriminate].
Qed.

(** C5: with [minint = 1] and [maxint = 9], asking for a Q-value between 100
    and 200 fails whatever the generator hands out and whatever the number
    of trials: the Q-value of the addition of two digits is below 100. *)
Theorem get_calculation_addition_single_digit :
  (forall (ntrials : Z) (g : generator),
      get_calculation_addition 100%R 200%R 1 9 ntrials g = Ok no_calculation) /\
  (forall n1 n2 : Z, 1 <= n1 <= 9 -> 1 <= n2 <= 9 ->
      exists Q : R, q_addition n1 n2 = Ok (Some Q) /\ (Q < 100)%R).
Proof.
  assert (B : forall n1 n2 : Z, 1 <= n1 <= 9 -> 1 <= n2 <= 9 ->
            exists Q : R, q_addition n1 n2 = Ok (Some Q) /\ (Q < 100)%R).
  { intros n1 n2 H1 H2. rewrite (q_addition_one_digit n1 n2 H1 H2).
    eexists; split; [reflexivity|]. simpl.
    assert (L : (Rlog10 (if n1 + n2 <? 10 then n1 + n2 + n1 + n2 + 0
                         else n1 + n2 + n1 + n2 + 10 + 0) < 2)%R).
    { apply Rlog10_lt_2. destruct (n1 + n2 <? 10); lia. }
    lra. }
  split; [|exact B].
  intros ntrials g. unfold get_calculation_addition.
  generalize (Z.to_nat ntrials) as trials. intros trials; revert g.
  induction trials as [|trials IH]; intros g; [reflexivity|].
  cbn [get_calculation_addition_loop].
  destruct (sample_addition_Ok 1 9 g ltac:(lia)) as (n1 & n2 & g' & E).
  rewrite E; simpl bind.
  destruct (sample_addition_range _ _ _ _ _ _ E) as [R1 R2].
  destruct (B n1 n2 R1 R2) as (Q & EQ & LQ).
  rewrite EQ; simpl bind.
  unfold in_interval; simpl. rewrite (Rleb_false 100 Q LQ); simpl.
  apply IH.
Qed.

Lemma get_calculation_addition_single_digit_witness :
  exists Q : R, q_addition 9 9 = Ok (Some Q) /\ (Q < 100)%R.
Proof.
  apply (proj2 get_calculation_addition_single_digit 9 9); lia.
Defined.

(** ** What a successful search returns *)

Lemma in_interval_Some {F : Type} `{PyFloat F} (lower upper : F)
  (q : option F) :
  in_interval lower upper q = true ->
  exists v, q = Some v /\ fle lower v = true /\ fle v upper = true.
Proof.
  unfold in_interval. destruct q as [v|]; simpl; [|discriminate].
  intros E. apply andb_prop in E as [E1 E2]. exists v; auto.
Qed.

(** A round that draws operands whose Q-value lies in the interval ends the
    search. *)
Lemma get_calculation_addition_loop_accept {F : Type} `{PyFloat F}
  (trials : nat) (lower upper : F) (minint maxint : Z) (g g' : generator)
  (n1 n2 : Z) (q : option F) :
  sample_addition minint maxint g = Ok (n1, n2, g') ->
  q_addition n1 n2 = Ok q ->
  in_interval lower upper q = true ->
  get_calculation_addition_loop (S trials) lower upper minint maxint g
  = Ok (Some n1, Some n2, q).
Proof.
  intros E1 E2 E3. cbn [get_calculation_addition_loop].
  rewrite E1; simpl bind. rewrite E2; simpl bind. rewrite E3. reflexivity.
Qed.

Lemma get_calculation_addition_loop_first {F : Type} `{PyFloat F}
  (lower upper : F) (minint maxint : Z) (trials : nat) :
  forall (g : generator) (c : calculation),
  get_calculation_addition_loop trials lower upper minint maxint g = Ok c ->
  c <> no_calculation ->
  exists (n1 n2 : Z) (q : F) (k : nat),
    c = (Some n1, Some n2, Some q) /\
    minint <= n1 <= maxint /\ minint <= n2 <= maxint /\
    q_addition n1 n2 = Ok (Some q) /\
    fle lower q = true /\ fle q upper = true /\
    (k < trials)%nat /\
    candidate_addition k minint maxint g = Ok (n1, n2) /\
    forall j, (j < k)%nat ->
      exists (m1 m2 : Z) (qj : option F),
        candidate_addition j minint maxint g = Ok (m1, m2) /\
        q_addition m1 m2 = Ok qj /\
        in_interval lower upper qj = false.
Proof.
  induction trials as [|trials IH]; intros g c E NF.
  { simpl in E. inversion E; subst. contradiction. }
  cbn [get_calculation_addition_loop] in E.
  apply bind_Ok in E as ([[n1 n2] g'] & ES & E).
  apply bind_Ok in E as (q & EQ & E).
  destruct (in_interval lower upper q) eqn:I.
  - inversion E; subst; clear E.
    destruct (in_interval_Some _ _ _ I) as (v & -> & L & U).
    destruct (sample_addition_range _ _ _ _ _ _ ES) as [R1 R2].
    exists n1, n2, v, 0%nat. repeat (split; [assumption || reflexivity|]).
    split; [lia|]. split.
    + cbn [candidate_addition]. rewrite ES. reflexivity.
    + intros j Hj. lia.
  - destruct (IH g' c E NF)
      as (a1 & a2 & v & k & -> & R1 & R2 & EA & L & U & Hk & EC & Before).
    exists a1, a2, v, (S k). repeat (split; [assumption || reflexivity|]).
    split; [lia|]. split.
    + cbn [candidate_addition]. rewrite ES. exact EC.
    + intros [|j] Hj.
      * exists n1, n2, q. cbn [candidate_addition]. rewrite ES. auto.
      * destruct (Before j ltac:(lia)) as (m1 & m2 & qj & C1 & C2 & C3).
        exists m1, m2, qj. cbn [candidate_addition]. rewrite ES. auto.
Qed.

(** C6: a list other than [[None, None, None]] returned by
    [get_calculation_addition] is [[n1, n2, q]] with both operands between
    [minint] and [maxint], [q] the Q-value of [n1 + n2], [lower <= q] and
    [q <= upper], and [(n1, n2)] the operands of the first round whose
    Q-value lies in the interval: every round before it drew operands that
    were rejected. *)
Theorem get_calculation_addition_first {F : Type} `{PyFloat F}
  (lower upper : F) (minint maxint ntrials : Z) (g : generator)
  (c : calculation) :
  get_calculation_addition lower upper minint maxint ntrials g = Ok c ->
  c <> no_calculation ->
  exists (n1 n2 : Z) (q : F) (k : nat),
    c = (Some n1, Some n2, Some q) /\
    minint <= n1 <= maxint /\ minint <= n2 <= maxint /\
    q_addition n1 n2 = Ok (Some q) /\
    fle lower q = true /\ fle q upper = true /\
    (k < Z.to_nat ntrials)%nat /\
    candidate_addition k minint maxint g = Ok (n1, n2) /\
    forall j, (j < k)%nat ->
      exists (m1 m2 : Z) (qj : option F),
        candidate_addition j minint maxint g = Ok (m1, m2) /\
        q_addition m1 m2 = Ok qj /\
        in_interval lower upper qj = false.
Proof.
  unfold get_calculation_addition. apply get_calculation_addition_loop_first.
Qed.

Lemma get_calculation_addition_first_witness :
  exists (n1 n2 : Z) (q : R) (k : nat),
    (Some 10, Some 1, Some 0%R) = (Some n1, Some n2, Some q) /\
    1 <= n1 <= 10 /\ 1 <= n2 <= 10 /\
    q_addition n1 n2 = Ok (Some q) /\
    fle 0%R q = true /\ fle q 0%R = true /\
    (k < Z.to_nat 5)%nat /\
    candidate_addition k 1 10 (two_valued_generator 9 0) = Ok (n1, n2) /\
    forall j, (j < k)%nat ->
      exists (m1 m2 : Z) (qj : option R),
        candidate_addition j 1 10 (two_valued_generator 9 0) = Ok (m1, m2) /\
        q_addition m1 m2 = Ok qj /\
        in_interval 0%R 0%R qj = false.
Proof.
  apply (get_calculation_addition_first 0%R 0%R 1 10 5
           (two_valued_generator 9 0)).
  - unfold get_calculation_addition. change (Z.to_nat 5) with 5%nat.
    eapply get_calculation_addition_loop_accept.
    + reflexivity.
    + reflexivity.
    + unfold in_interval; simpl. rewrite Rleb_true by lra. reflexivity.
  - discriminate.
Defined.

(** ** The operands a subtraction search draws *)

(** With [minint = 1] the generator that always hands out 0 makes
    [get_calculation_subtraction] draw [n1 = 1] and then [n2 = 1] from
    [1..n1]: [n2 < n1] fails and [q_subtraction] returns [None]. *)
Lemma sample_subtraction_equal_operands :
  sample_subtraction 1 999 zero_generator
  = Ok (1, 1, {| entropy := entropy zero_generator; cursor := 2 |}) /\
  ~ (0 < 1 /\ 0 < 1 /\ 1 < 1) /\
  q_subtraction (F := R) 1 1 = Ok None.
Proof.
  split; [reflexivity|]. split; [lia | reflexivity].
Qed.

(** C7, amended: with [minint >= 1] the operands a round of
    [get_calculation_subtraction] draws satisfy [n1 > 0], [n2 > 0] and
    [n2 <= n1]; [q_subtraction] returns [None] on them exactly when
    [n2 = n1] was drawn, and a number otherwise. *)
Theorem sample_subtraction_domain {F : Type} `{PyFloat F}
  (minint maxint : Z) (g g' : generator) (n1 n2 : Z) :
  1 <= minint ->
  sample_subtraction minint maxint g = Ok (n1, n2, g') ->
  0 < n1 /\ 0 < n2 /\ n2 <= n1 /\
  (q_subtraction n1 n2 = Ok None <-> n2 = n1) /\
  (n2 < n1 -> exists Q : F, q_subtraction n1 n2 = Ok (Some Q)).
Proof.
  intros Hm E. destruct (sample_subtraction_range _ _ _ _ _ _ E) as [R1 R2].
  assert (T : n2 < n1 -> exists Q : F, q_subtraction n1 n2 = Ok (Some Q)).
  { intros L.
    destruct (q_subtraction_run (fun _ => True) (fun _ _ _ _ => I) n1 n2
                ltac:(lia) L I) as (Q & EQ & _).
    exists Q; exact EQ. }
  repeat (split; [lia|]). split; [split|exact T].
  - intros EN. destruct (Z.eq_dec n2 n1) as [|NE]; [assumption|].
    destruct T as (Q & EQ); [lia | congruence].
  - intros ->. unfold q_subtraction.
    rewrite Z.ltb_irrefl, andb_false_r. reflexivity.
Qed.

Lemma sample_subtraction_domain_witness :
  0 < 5 /\ 0 < 2 /\ 2 <= 5 /\
  (q_subtraction (F := R) 5 2 = Ok None <-> 2 = 5) /\
  (2 < 5 -> exists Q : R, q_subtraction 5 2 = Ok (Some Q)).
Proof.
  apply (sample_subtraction_domain 1 999 (two_valued_generator 4 1)
           {| entropy := entropy (two_valued_generator 4 1); cursor := 2 |}
           5 2);
    [lia | reflexivity].
Defined.

(** * Further properties of the code *)

(** ** Loops, once more *)

Lemma for_each_app {S A : Type} (xs ys : list A) (body : S -> A -> result S)
  (st : S) :
  for_each (xs ++ ys) body st
  = (st' <- for_each xs body st ;; for_each ys body st').
Proof.
  revert st; induction xs as [|x xs IH]; intros st; simpl; [reflexivity|].
  destruct (body st x); simpl; auto.
Qed.

(** An invariant that counts the rounds. *)
Lemma for_each_count {S A : Type} (Inv : nat -> S -> Prop) (P : A -> Prop)
  (body : S -> A -> result S) :
  (forall k st x, Inv k st -> P x ->
     exists st', body st x = Ok st' /\ Inv (Datatypes.S k) st') ->
  forall xs k st, Forall P xs -> Inv k st ->
  exists st', for_each xs body st = Ok st' /\ Inv (k + List.length xs)%nat st'.
Proof.
  intros Hbody xs; induction xs as [|x xs IH]; intros k st HP Hst; simpl.
  - exists st. rewrite Nat.add_0_r. auto.
  - inversion HP as [|? ? Hx Hxs]; subst.
    destruct (Hbody k st x Hst Hx) as (st1 & E1 & I1).
    rewrite E1; simpl.
    destruct (IH (Datatypes.S k) st1 Hxs I1) as (st2 & E2 & I2).
    exists st2. split; [exact E2|].
    replace (k + Datatypes.S (List.length xs))%nat
      with (Datatypes.S k + List.length xs)%nat by lia.
    exact I2.
Qed.

Lemma range_down_length (n : nat) : List.length (range_down n) = n.
Proof.
  unfold range_down. rewrite length_rev, length_seq. reflexivity.
Qed.

(** ** Alignment of the operands *)

Lemma zfill_len_any (s : pystr) (width : nat) :
  len (zfill s width) = Nat.max width (len s).
Proof.
  unfold zfill. destruct (width <=? len s)%nat eqn:E.
  - apply Nat.leb_le in E. lia.
  - apply Nat.leb_gt in E. destruct s as [|c rest].
    + unfold len. rewrite repeat_length. simpl. lia.
    + destruct (Ascii.eqb c "+" || Ascii.eqb c "-")%bool; unfold len in *;
        simpl in *; rewrite length_app, repeat_length; simpl; lia.
Qed.

(** X5: whatever the two integers, the texts the loops read are
    [str(n1).zfill(length)] and [str(n2).zfill(length)] (so the outcome of
    the identity test [len(n1) is not len(n2)] cannot change them), both
    have the length [max(len(str(n1)), len(str(n2)))], and for operands
    that are not negative they are [str(n1)] and [str(n2)] behind zeros
    only. *)
Theorem align_zfill (n1 n2 : Z) :
  let length := Nat.max (len (str n1)) (len (str n2)) in
  align n1 n2 = (zfill (str n1) length, zfill (str n2) length, length) /\
  len (zfill (str n1) length) = length /\
  len (zfill (str n2) length) = length /\
  (0 <= n1 -> 0 <= n2 ->
   align n1 n2
   = (repeat "0"%char (length - len (str n1)) ++ str n1,
      repeat "0"%char (length - len (str n2)) ++ str n2, length)).
Proof.
  intros length.
  assert (A : align n1 n2
              = (zfill (str n1) length, zfill (str n2) length, length)).
  { unfold align. fold length.
    destruct (len (str n1) =? len (str n2))%nat eqn:E; simpl; [|reflexivity].
    apply Nat.eqb_eq in E. unfold zfill.
    replace (length <=? len (str n1))%nat with true
      by (symmetry; apply Nat.leb_le; subst length; lia).
    replace (length <=? len (str n2))%nat with true
      by (symmetry; apply Nat.leb_le; subst length; lia).
    reflexivity. }
  split; [exact A|]. split; [|split].
  - rewrite zfill_len_any. subst length; lia.
  - rewrite zfill_len_any. subst length; lia.
  - intros H1 H2. rewrite A.
    rewrite (zfill_digits_eq (str n1)), (zfill_digits_eq (str n2))
      by (apply str_digits; assumption).
    reflexivity.
Qed.

Lemma align_zfill_witness :
  align 1234 56
  = (repeat "0"%char (4 - len (str 1234)) ++ str 1234,
     repeat "0"%char (4 - len (str 56)) ++ str 56, 4%nat).
Proof.
  apply (proj2 (proj2 (proj2 (align_zfill 1234 56)))); lia.
Defined.

(** ** Validity of the operands of [q_subtraction] and [q_multiplication] *)

Lemma bind_not_None {S F : Type} (r : result S) (k : S -> F) :
  (st <- r ;; Ok (Some (k st))) <> Ok None.
Proof.
  destruct r; simpl; discriminate.
Qed.

(** X1: [q_subtraction n1 n2] is [None] exactly when [n1 > 0], [n2 > 0] and
    [n2 < n1] do not all hold; it raises no exception on any two integers;
    and inside its domain it returns a number. *)
Theorem q_subtraction_None_iff {F : Type} `{PyFloat F} (n1 n2 : Z) :
  (q_subtraction n1 n2 = Ok None <-> ~ (0 < n1 /\ 0 < n2 /\ n2 < n1)) /\
  (forall e, q_subtraction n1 n2 <> Raise e) /\
  (0 < n2 -> n2 < n1 -> exists Q : F, q_subtraction n1 n2 = Ok (Some Q)).
Proof.
  assert (T : 0 < n2 -> n2 < n1 ->
              exists Q : F, q_subtraction n1 n2 = Ok (Some Q)).
  { intros H2 H1.
    destruct (q_subtraction_run (fun _ => True) (fun _ _ _ _ => I) n1 n2 H2 H1 I)
      as (Q & E & _).
    exists Q; exact E. }
  assert (G : ~ (0 < n1 /\ 0 < n2 /\ n2 < n1) -> q_subtraction n1 n2 = Ok None).
  { intros N. unfold q_subtraction.
    replace ((n1 >? 0) && (n2 >? 0) && (n2 <? n1))%bool with false;
      [reflexivity|].
    symmetry. destruct (n1 >? 0) eqn:E1; [|reflexivity].
    destruct (n2 >? 0) eqn:E2; [|reflexivity].
    destruct (n2 <? n1) eqn:E3; [|reflexivity].
    apply Z.gtb_lt in E1, E2. apply Z.ltb_lt in E3. tauto. }
  split; [split|split; [|exact T]].
  - intros E [H1 [H2 H3]]. destruct (T H2 H3) as (Q & EQ). congruence.
  - exact G.
  - intros e E.
    destruct (Z_lt_dec 0 n2) as [H2|N2]; [destruct (Z_lt_dec n2 n1) as [H1|N1]|].
    + destruct (T H2 H1) as (Q & EQ). congruence.
    + rewrite G in E by lia. discriminate.
    + rewrite G in E by lia. discriminate.
Qed.

Lemma q_subtraction_None_iff_witness :
  exists Q : R, q_subtraction 1000 1 = Ok (Some Q).
Proof.
  apply (proj2 (proj2 (q_subtraction_None_iff 1000 1))); lia.
Defined.

(** X2: [q_multiplication x multiplicand] is [None] exactly when [x] is
    outside [2..9], whatever the multiplicand; for [x] in [2..9] and a
    multiplicand that is not negative it returns a number. *)
Theorem q_multiplication_None_iff {F : Type} `{PyFloat F}
  (x multiplicand : Z) :
  (q_multiplication x multiplicand = Ok None <-> x < 2 \/ 9 < x) /\
  (2 <= x <= 9 -> 0 <= multiplicand ->
   exists Q : F, q_multiplication x multiplicand = Ok (Some Q)).
Proof.
  split; [split|].
  - intros E. unfold q_multiplication in E.
    destruct (x <? 2) eqn:E1; [apply Z.ltb_lt in E1; lia|].
    destruct (x >? 9) eqn:E2; [apply Z.gtb_lt in E2; lia|].
    simpl in E. exfalso. revert E.
    match goal with
    | |- bind ?r _ = _ -> _ =>
        destruct r as [[Q c]|]; simpl; discriminate
    end.
  - intros N. unfold q_multiplication.
    replace ((x <? 2) || (x >? 9))%bool with true; [reflexivity|].
    symmetry; apply orb_true_iff.
    destruct N; [left; apply Z.ltb_lt | right; apply Z.gtb_lt]; lia.
  - apply q_multiplication_run.
Qed.

Lemma q_multiplication_None_iff_witness :
  exists Q : R, q_multiplication 7 0 = Ok (Some Q).
Proof.
  apply (proj2 (q_multiplication_None_iff 7 0)); lia.
Defined.

(** ** A negative multiplicand *)

Lemma str_neg (p : positive) : str (Z.neg p) = "-"%char :: str (Z.pos p).
Proof.
  reflexivity.
Qed.

(** A step of the multiplication on a digit, wherever it comes from. *)
Lemma q_multiplication_step_digit {F : Type} `{PyFloat F} (x : Z) (s : pystr)
  (Q : F) (carry : Z) (d : nat) (m : Z) :
  2 <= x <= 9 -> digit_at s d = Ok m -> 0 <= carry <= 8 ->
  exists (a c' : Z),
    q_multiplication_step x s (Q, carry) d = Ok (fadd Q (flog10 a), c') /\
    2 <= a <= 285 /\ 0 <= c' <= 8.
Proof.
  intros Hx E Hc. pose proof (digit_at_range _ _ _ E) as B.
  unfold q_multiplication_step. rewrite E; simpl bind.
  assert (P : 0 <= x * m <= 81) by nia.
  assert (X : 2 <= x + m <= 18) by lia.
  generalize dependent (x * m); intros p P.
  destruct (p + carry <? 10) eqn:C1; bool_facts.
  { log10_defined. eexists; eexists; split; [reflexivity | lia]. }
  destruct ((d =? 0)%nat && (carry =? 0))%bool eqn:C2.
  { log10_defined. eexists; eexists; split; [reflexivity | lia]. }
  cbv zeta.
  pose proof (Z.mod_pos_bound (p + carry) 10 ltac:(lia)) as M.
  assert (R : 0 <= (p + carry - (p + carry) mod 10) / 10 <= 8).
  { Z.to_euclidean_division_equations; lia. }
  generalize dependent ((p + carry - (p + carry) mod 10) / 10); intros t R.
  generalize dependent ((p + carry) mod 10); intros r M.
  destruct (r =? 0);
    [| destruct (d =? 0)%nat; [| destruct (carry >? 0)]];
    log10_defined;
    (eexists; eexists; split; [reflexivity | lia]).
Qed.

(** X3: for [x] in [2..9] and a negative multiplicand, [q_multiplication]
    raises [ValueError]: the digits are consumed from the right without
    error and then [int] is applied to the sign. *)
Theorem q_multiplication_negative_raises {F : Type} `{PyFloat F}
  (x multiplicand : Z) :
  2 <= x <= 9 -> multiplicand < 0 ->
  @q_multiplication F _ x multiplicand = Raise ValueError.
Proof.
  intros Hx Hm. destruct multiplicand as [|p|p]; try lia.
  unfold q_multiplication.
  replace ((x <? 2) || (x >? 9))%bool with false
    by (symmetry; apply orb_false_iff; split;
        [apply Z.ltb_ge | rewrite Z.gtb_ltb; apply Z.ltb_ge]; lia).
  rewrite str_neg. set (s := str (Z.pos p)).
  assert (D : digits s) by (apply str_digits; lia).
  change (len ("-"%char :: s)) with (S (len s)).
  unfold range_down. change (seq 0 (S (len s))) with (0%nat :: seq 1 (len s)).
  cbn [rev]. rewrite for_each_app.
  destruct (for_each_invariant (tens_state (fun _ : F => True))
              (fun d => (1 <= d < S (len s))%nat)
              (q_multiplication_step x ("-"%char :: s)))
    with (xs := rev (seq 1 (len s))) (st := (@of_int F _ 0, 0))
    as ([Q carry] & E & _ & B).
  - intros [Q carry] d [_ Hc] Hd. simpl in Hc.
    destruct d as [|d]; [lia|].
    destruct (digit_at_digits s d D ltac:(lia)) as (m & Em & _).
    destruct (q_multiplication_step_digit x ("-"%char :: s) Q carry (S d) m
                Hx Em Hc) as (a & c' & Es & _ & Hc').
    rewrite Es. eexists; split; [reflexivity | split; simpl; auto].
  - apply Forall_rev, Forall_forall. intros d Hd. apply in_seq in Hd. lia.
  - split; simpl; [exact I | lia].
  - rewrite E. reflexivity.
Qed.

Lemma q_multiplication_negative_raises_witness :
  @q_multiplication R _ 9 (-99) = Raise ValueError.
Proof.
  apply q_multiplication_negative_raises; lia.
Defined.

(** ** The carry of an addition and the borrow of a subtraction *)

(** X4: for operands in the domain, after any number [k] of rounds of the
    loop of [q_addition] no exception was raised and the carry is 0 or 1;
    likewise for the borrow in the loop of [q_subtraction]. *)
Theorem carry_is_a_bit {F : Type} `{PyFloat F} (n1 n2 : Z) (k : nat) :
  0 < n1 -> 0 < n2 ->
  let '(s1, s2, length) := align n1 n2 in
  (exists (Q : F) (carry : Z),
     for_each (firstn k (range_down length)) (q_addition_step s1 s2)
       (of_int 0, 0) = Ok (Q, carry) /\
     (carry = 0 \/ carry = 1)) /\
  (exists (Q : F) (carry : Z),
     for_each (firstn k (range_down length)) (q_subtraction_step s1 s2)
       (of_int 0, 0) = Ok (Q, carry) /\
     (carry = 0 \/ carry = 1)).
Proof.
  intros H1 H2. destruct (align n1 n2) as [[s1 s2] length] eqn:A.
  destruct (align_digits n1 n2 s1 s2 length ltac:(lia) ltac:(lia) A)
    as (D1 & D2 & L1 & L2).
  split.
  - destruct (for_each_invariant (bit_state (fun _ : F => True))
                (fun d => (d < length)%nat) (q_addition_step s1 s2))
      with (xs := firstn k (range_down length)) (st := (@of_int F _ 0, 0))
      as ([Q c] & E & _ & B).
    + intros st d Hs Hd.
      apply (q_addition_step_ok (fun _ => True) (fun _ _ _ _ => I));
        auto; lia.
    + apply Forall_firstn, range_down_lt.
    + split; simpl; auto.
    + exists Q, c. auto.
  - destruct (for_each_invariant (bit_state (fun _ : F => True))
                (fun d => (d < length)%nat) (q_subtraction_step s1 s2))
      with (xs := firstn k (range_down length)) (st := (@of_int F _ 0, 0))
      as ([Q c] & E & _ & B).
    + intros st d Hs Hd.
      apply (q_subtraction_step_ok (fun _ => True) (fun _ _ _ _ => I));
        auto; lia.
    + apply Forall_firstn, range_down_lt.
    + split; simpl; auto.
    + exists Q, c. auto.
Qed.

Lemma carry_is_a_bit_witness :
  (exists (Q : R) (carry : Z),
     for_each (firstn 2 (range_down 3))
       (q_addition_step (str 999) (zfill (str 1) 3)) (of_int 0, 0)
     = Ok (Q, carry) /\
     (carry = 0 \/ carry = 1)) /\
  (exists (Q : R) (carry : Z),
     for_each (firstn 2 (range_down 3))
       (q_subtraction_step (str 999) (zfill (str 1) 3)) (of_int 0, 0)
     = Ok (Q, carry) /\
     (carry = 0 \/ carry = 1)).
Proof.
  apply (carry_is_a_bit 999 1 2); lia.
Defined.

(** ** What one round adds *)

(** A round of the addition either is skipped or adds the [log10] of a sum
    between 1 and 47. *)
Lemma q_addition_step_shape {F : Type} `{PyFloat F} (s1 s2 : pystr)
  (Q : F) (carry : Z) (d : nat) :
  digits s1 -> digits s2 -> (d < len s1)%nat -> (d < len s2)%nat ->
  carry = 0 \/ carry = 1 ->
  q_addition_step s1 s2 (Q, carry) d = Ok (Q, carry) \/
  exists (a c' : Z),
    q_addition_step s1 s2 (Q, carry) d = Ok (fadd Q (flog10 a), c') /\
    1 <= a <= 47 /\ (c' = 0 \/ c' = 1).
Proof.
  intros D1 D2 L1 L2 Hc.
  destruct (digit_at_digits s1 d D1 L1) as (d1 & E1 & B1).
  destruct (digit_at_digits s2 d D2 L2) as (d2 & E2 & B2).
  unfold q_addition_step. rewrite E1, E2; simpl bind.
  destruct (((d1 =? 0) || (d2 =? 0)) && (carry =? 0))%bool eqn:T;
    [left; reflexivity | right].
  destruct (d1 + d2 + carry <? 10) eqn:C; bool_facts; log10_defined;
    (eexists; eexists; split; [reflexivity | split; [lia | auto]]).
Qed.

(** A round of the subtraction either is skipped or adds the [log10] of a
    sum between 2 and 29. *)
Lemma q_subtraction_step_shape {F : Type} `{PyFloat F} (s1 s2 : pystr)
  (Q : F) (carry : Z) (d : nat) :
  digits s1 -> digits s2 -> (d < len s1)%nat -> (d < len s2)%nat ->
  carry = 0 \/ carry = 1 ->
  q_subtraction_step s1 s2 (Q, carry) d = Ok (Q, carry) \/
  exists (a c' : Z),
    q_subtraction_step s1 s2 (Q, carry) d = Ok (fadd Q (flog10 a), c') /\
    2 <= a <= 29 /\ (c' = 0 \/ c' = 1).
Proof.
  intros D1 D2 L1 L2 Hc.
  destruct (digit_at_digits s1 d D1 L1) as (d1 & E1 & B1).
  destruct (digit_at_digits s2 d D2 L2) as (d2 & E2 & B2).
  unfold q_subtraction_step. rewrite E1, E2; simpl bind.
  destruct ((d2 =? 0) && (carry =? 0))%bool eqn:T;
    [left; reflexivity | right].
  destruct (d1 - d2 - carry >=? 0) eqn:C; bool_facts.
  - log10_defined.
    eexists; eexists; split; [reflexivity | split; [lia | auto]].
  - rewrite Z.geb_leb in C. apply Z.leb_gt in C.
    rewrite (proj2 (Z.ltb_lt _ _) C). log10_defined.
    eexists; eexists; split; [reflexivity | split; [lia | auto]].
Qed.

Lemma Rlog10_le (a b : Z) : 1 <= a <= b -> (Rlog10 a <= Rlog10 b)%R.
Proof.
  intros [Ha Hab]. pose proof ln_10_pos as L. unfold Rlog10.
  apply Rmult_le_compat_r; [left; apply Rinv_0_lt_compat; assumption|].
  apply IZR_le in Ha. destruct (Z.eq_dec a b) as [->|N]; [lra|].
  left. apply ln_increasing; [lra | apply IZR_lt; lia].
Qed.

Lemma Rlog10_2_pos : (0 < Rlog10 2)%R.
Proof.
  unfold Rlog10. apply Rmult_lt_0_compat.
  - rewrite <- ln_1. apply ln_increasing; lra.
  - apply Rinv_0_lt_compat, ln_10_pos.
Qed.

(** ** The range of the Q-values, on the real numbers *)

Lemma align_length (n1 n2 : Z) (s1 s2 : pystr) (length : nat) :
  align n1 n2 = (s1, s2, length) ->
  length = Nat.max (len (str n1)) (len (str n2)).
Proof.
  unfold align. destruct (negb (len (str n1) =? len (str n2))%nat);
    intros X; inversion X; reflexivity.
Qed.

Lemma str_nonempty (n : Z) : 0 <= n -> (1 <= len (str n))%nat.
Proof.
  intros Hn. unfold str. destruct n as [|p|p]; [simpl; lia | | lia].
  simpl. destruct (Pos.to_uint p); simpl; lia.
Qed.

(** X6: for [n1 > 0] and [n2 > 0], with [L] the number of digits of the
    longer operand, [0 <= q_addition n1 n2 <= L * log10 47]: a round adds
    nothing or the [log10] of a sum of at most 9+9+18+10+1. *)
Theorem q_addition_bounds (n1 n2 : Z) :
  0 < n1 -> 0 < n2 ->
  exists Q : R,
    q_addition n1 n2 = Ok (Some Q) /\
    (0 <= Q <= INR (Nat.max (len (str n1)) (len (str n2))) * Rlog10 47)%R.
Proof.
  intros H1 H2. unfold q_addition.
  replace (negb ((n1 >? 0) && (n2 >? 0))) with false
    by (symmetry; apply negb_false_iff, andb_true_intro; split;
        apply Z.gtb_lt; lia).
  destruct (align n1 n2) as [[s1 s2] length] eqn:A.
  destruct (align_digits n1 n2 s1 s2 length ltac:(lia) ltac:(lia) A)
    as (D1 & D2 & L1 & L2).
  rewrite <- (align_length _ _ _ _ _ A).
  pose proof (Rlog10_nonneg 47 ltac:(lia)) as P47.
  destruct (for_each_count
              (fun k (st : R * Z) =>
                 (0 <= fst st <= INR k * Rlog10 47)%R /\
                 (snd st = 0 \/ snd st = 1))
              (fun d => (d < length)%nat) (q_addition_step s1 s2))
    with (xs := range_down length) (k := 0%nat) (st := (0%R, 0))
    as ([Q c] & E & [B _]).
  - intros k [Q c] d [B Hc] Hd. simpl in B, Hc. rewrite S_INR.
    destruct (q_addition_step_shape s1 s2 Q c d D1 D2 ltac:(lia) ltac:(lia) Hc)
      as [Es | (a & c' & Es & Ba & Hc')]; rewrite Es.
    + eexists; split; [reflexivity|]. simpl. split; [lra | assumption].
    + eexists; split; [reflexivity|]. simpl.
      pose proof (Rlog10_nonneg a ltac:(lia)).
      pose proof (Rlog10_le a 47 ltac:(lia)).
      split; [lra | assumption].
  - apply range_down_lt.
  - simpl. split; [lra | auto].
  - change (@of_int R PyFloat_R 0) with 0%R. rewrite E. simpl bind.
    exists Q. split; [reflexivity|].
    rewrite range_down_length in B. simpl in B. exact B.
Qed.

Lemma q_addition_bounds_witness :
  exists Q : R,
    q_addition 999 999 = Ok (Some Q) /\
    (0 <= Q <= INR (Nat.max (len (str 999)) (len (str 999))) * Rlog10 47)%R.
Proof.
  apply (q_addition_bounds 999 999); lia.
Defined.

(** X7: inside the domain of [q_subtraction], with [L] the number of digits
    of [n1], [0 <= q_subtraction n1 n2 <= L * log10 29]. *)
Theorem q_subtraction_bounds (n1 n2 : Z) :
  0 < n2 -> n2 < n1 ->
  exists Q : R,
    q_subtraction n1 n2 = Ok (Some Q) /\
    (0 <= Q <= INR (Nat.max (len (str n1)) (len (str n2))) * Rlog10 29)%R.
Proof.
  intros H2 H1. unfold q_subtraction.
  replace (negb ((n1 >? 0) && (n2 >? 0) && (n2 <? n1))) with false
    by (symmetry; apply negb_false_iff; repeat (apply andb_true_intro; split);
        [apply Z.gtb_lt | apply Z.gtb_lt | apply Z.ltb_lt]; lia).
  destruct (align n1 n2) as [[s1 s2] length] eqn:A.
  destruct (align_digits n1 n2 s1 s2 length ltac:(lia) ltac:(lia) A)
    as (D1 & D2 & L1 & L2).
  rewrite <- (align_length _ _ _ _ _ A).
  pose proof (Rlog10_nonneg 29 ltac:(lia)) as P29.
  destruct (for_each_count
              (fun k (st : R * Z) =>
                 (0 <= fst st <= INR k * Rlog10 29)%R /\
                 (snd st = 0 \/ snd st = 1))
              (fun d => (d < length)%nat) (q_subtraction_step s1 s2))
    with (xs := range_down length) (k := 0%nat) (st := (0%R, 0))
    as ([Q c] & E & [B _]).
  - intros k [Q c] d [B Hc] Hd. simpl in B, Hc. rewrite S_INR.
    destruct (q_subtraction_step_shape s1 s2 Q c d D1 D2 ltac:(lia) ltac:(lia)
                Hc) as [Es | (a & c' & Es & Ba & Hc')]; rewrite Es.
    + eexists; split; [reflexivity|]. simpl. split; [lra | assumption].
    + eexists; split; [reflexivity|]. simpl.
      pose proof (Rlog10_nonneg a ltac:(lia)).
      pose proof (Rlog10_le a 29 ltac:(lia)).
      split; [lra | assumption].
  - apply range_down_lt.
  - simpl. split; [lra | auto].
  - change (@of_int R PyFloat_R 0) with 0%R. rewrite E. simpl bind.
    exists Q. split; [reflexivity|].
    rewrite range_down_length in B. simpl in B. exact B.
Qed.

Lemma q_subtraction_bounds_witness :
  exists Q : R,
    q_subtraction 1000 1 = Ok (Some Q) /\
    (0 <= Q <= INR (Nat.max (len (str 1000)) (len (str 1))) * Rlog10 29)%R.
Proof.
  apply (q_subtraction_bounds 1000 1); lia.
Defined.

(** The Q-value of a multiplication, between two multiples of the number of
    digits. *)
Lemma q_multiplication_range_R (x multiplicand : Z) :
  2 <= x <= 9 -> 0 <= multiplicand ->
  exists Q : R,
    q_multiplication x multiplicand = Ok (Some Q) /\
    (INR (len (str multiplicand)) * Rlog10 2 <= Q
     <= INR (len (str multiplicand)) * Rlog10 285)%R /\
    (0 < Q)%R.
Proof.
  intros Hx Hm. unfold q_multiplication.
  replace ((x <? 2) || (x >? 9))%bool with false
    by (symmetry; apply orb_false_iff; split;
        [apply Z.ltb_ge | rewrite Z.gtb_ltb; apply Z.ltb_ge]; lia).
  set (s := str multiplicand).
  assert (D : digits s) by (apply str_digits; assumption).
  destruct (for_each_count
              (fun k (st : R * Z) =>
                 (INR k * Rlog10 2 <= fst st <= INR k * Rlog10 285)%R /\
                 0 <= snd st <= 8)
              (fun d => (d < len s)%nat) (q_multiplication_step x s))
    with (xs := range_down (len s)) (k := 0%nat) (st := (0%R, 0))
    as ([Q c] & E & [B _]).
  - intros k [Q c] d [B Hc] Hd. simpl in B, Hc. rewrite S_INR.
    destruct (digit_at_digits s d D Hd) as (m & Em & _).
    destruct (q_multiplication_step_digit x s Q c d m Hx Em Hc)
      as (a & c' & Es & Ba & Hc').
    rewrite Es. eexists; split; [reflexivity|]. simpl.
    pose proof (Rlog10_le 2 a ltac:(lia)).
    pose proof (Rlog10_le a 285 ltac:(lia)).
    split; [lra | assumption].
  - apply range_down_lt.
  - simpl. split; [lra | lia].
  - change (@of_int R PyFloat_R 0) with 0%R. rewrite E. simpl bind.
    exists Q. split; [reflexivity|].
    rewrite range_down_length in B. simpl in B.
    split; [exact B|].
    pose proof (str_nonempty multiplicand Hm) as N. fold s in N.
    apply le_INR in N. simpl in N.
    pose proof Rlog10_2_pos. nra.
Qed.

(** X8: for [x] in [2..9] and a multiplicand of [L] digits that is not
    negative, [L * log10 2 <= q_multiplication x multiplicand
    <= L * log10 285]: every digit adds the [log10] of a sum of at least
    [x], so the Q-value of a multiplication is never 0. *)
Theorem q_multiplication_bounds (x multiplicand : Z) :
  2 <= x <= 9 -> 0 <= multiplicand ->
  exists Q : R,
    q_multiplication x multiplicand = Ok (Some Q) /\
    (INR (len (str multiplicand)) * Rlog10 2 <= Q
     <= INR (len (str multiplicand)) * Rlog10 285)%R /\
    (0 < Q)%R.
Proof.
  apply q_multiplication_range_R.
Qed.

Lemma q_multiplication_bounds_witness :
  exists Q : R,
    q_multiplication 9 99 = Ok (Some Q) /\
    (INR (len (str 99)) * Rlog10 2 <= Q <= INR (len (str 99)) * Rlog10 285)%R /\
    (0 < Q)%R.
Proof.
  apply (q_multiplication_bounds 9 99); lia.
Defined.

(** ** Multiplications of two digits *)

(** X9: for [x] in [2..9] and a one-digit multiplicand [m], the Q-value is
    [log10 (x + m + x*m)] whether or not the product reaches 10: below 10
    the carry term is 0, and from 10 on the special case for the final
    digit applies. *)
Theorem q_multiplication_one_digit {F : Type} `{PyFloat F} (x m : Z) :
  2 <= x <= 9 -> 0 <= m <= 9 ->
  q_multiplication x m = Ok (Some (fadd (of_int 0) (flog10 (x + m + x * m)))).
Proof.
  intros Hx Hm.
  assert (Cx : x = 2 \/ x = 3 \/ x = 4 \/ x = 5 \/ x = 6 \/ x = 7 \/
               x = 8 \/ x = 9) by lia.
  assert (Cm : m = 0 \/ m = 1 \/ m = 2 \/ m = 3 \/ m = 4 \/ m = 5 \/
               m = 6 \/ m = 7 \/ m = 8 \/ m = 9) by lia.
  clear Hx Hm.
  repeat (destruct Cx as [Cx | Cx]); subst x;
    repeat (destruct Cm as [Cm | Cm]); subst m; reflexivity.
Qed.

Lemma q_multiplication_one_digit_witness :
  @q_multiplication R _ 7 8
  = Ok (Some (fadd (of_int 0) (flog10 (7 + 8 + 7 * 8)))).
Proof.
  apply (q_multiplication_one_digit 7 8); lia.
Defined.

(** ** What the other two searches return *)

Lemma q_subtraction_Some_domain {F : Type} `{PyFloat F} (n1 n2 : Z) (q : F) :
  q_subtraction n1 n2 = Ok (Some q) -> 0 < n1 /\ 0 < n2 /\ n2 < n1.
Proof.
  unfold q_subtraction.
  destruct (n1 >? 0) eqn:E1; [|discriminate].
  destruct (n2 >? 0) eqn:E2; [|discriminate].
  destruct (n2 <? n1) eqn:E3; [|discriminate].
  intros _. apply Z.gtb_lt in E1, E2. apply Z.ltb_lt in E3. auto.
Qed.

Lemma q_multiplication_Some_domain {F : Type} `{PyFloat F}
  (x multiplicand : Z) (q : F) :
  q_multiplication x multiplicand = Ok (Some q) -> 2 <= x <= 9.
Proof.
  unfold q_multiplication.
  destruct (x <? 2) eqn:E1; [discriminate|].
  destruct (x >? 9) eqn:E2; [discriminate|].
  intros _. apply Z.ltb_ge in E1. rewrite Z.gtb_ltb in E2.
  apply Z.ltb_ge in E2. lia.
Qed.

Lemma get_calculation_subtraction_loop_sound {F : Type} `{PyFloat F}
  (lower upper : F) (minint maxint : Z) (trials : nat) :
  forall (g : generator) (c : calculation),
  get_calculation_subtraction_loop trials lower upper minint maxint g = Ok c ->
  c <> no_calculation ->
  exists (n1 n2 : Z) (q : F),
    c = (Some n1, Some n2, Some q) /\
    minint <= n1 <= maxint /\ minint <= n2 /\ 0 < n2 < n1 /\
    q_subtraction n1 n2 = Ok (Some q) /\
    fle lower q = true /\ fle q upper = true.
Proof.
  induction trials as [|trials IH]; intros g c E NF.
  { simpl in E. inversion E; subst. contradiction. }
  cbn [get_calculation_subtraction_loop] in E.
  apply bind_Ok in E as ([[n1 n2] g'] & ES & E).
  apply bind_Ok in E as (q & EQ & E).
  destruct (in_interval lower upper q) eqn:I.
  - inversion E; subst; clear E.
    destruct (in_interval_Some _ _ _ I) as (v & -> & L & U).
    destruct (sample_subtraction_range _ _ _ _ _ _ ES) as [R1 R2].
    destruct (q_subtraction_Some_domain _ _ _ EQ) as (P1 & P2 & P3).
    exists n1, n2, v. repeat split; auto; lia.
  - apply (IH g' c E NF).
Qed.

(** X10: a list other than [[None, None, None]] returned by
    [get_calculation_subtraction] is [[n1, n2, q]] with
    [minint <= n1 <= maxint], [minint <= n2] and [0 < n2 < n1] (strictly,
    although [n2] is drawn from [minint..n1]), [q] the Q-value of
    [n1 - n2], [lower <= q] and [q <= upper]. *)
Theorem get_calculation_subtraction_sound {F : Type} `{PyFloat F}
  (lower upper : F) (minint maxint ntrials : Z) (g : generator)
  (c : calculation) :
  get_calculation_subtraction lower upper minint maxint ntrials g = Ok c ->
  c <> no_calculation ->
  exists (n1 n2 : Z) (q : F),
    c = (Some n1, Some n2, Some q) /\
    minint <= n1 <= maxint /\ minint <= n2 /\ 0 < n2 < n1 /\
    q_subtraction n1 n2 = Ok (Some q) /\
    fle lower q = true /\ fle q upper = true.
Proof.
  unfold get_calculation_subtraction.
  apply get_calculation_subtraction_loop_sound.
Qed.

Lemma get_calculation_subtraction_loop_accept {F : Type} `{PyFloat F}
  (trials : nat) (lower upper : F) (minint maxint : Z) (g g' : generator)
  (n1 n2 : Z) (q : option F) :
  sample_subtraction minint maxint g = Ok (n1, n2, g') ->
  q_subtraction n1 n2 = Ok q ->
  in_interval lower upper q = true ->
  get_calculation_subtraction_loop (S trials) lower upper minint maxint g
  = Ok (Some n1, Some n2, q).
Proof.
  intros E1 E2 E3. cbn [get_calculation_subtraction_loop].
  rewrite E1; simpl bind. rewrite E2; simpl bind. rewrite E3. reflexivity.
Qed.

Lemma get_calculation_subtraction_sound_witness :
  exists (n1 n2 : Z) (q : R),
    (Some 5, Some 2, Some (0 + Rlog10 10)%R) = (Some n1, Some n2, Some q) /\
    1 <= n1 <= 999 /\ 1 <= n2 /\ 0 < n2 < n1 /\
    q_subtraction n1 n2 = Ok (Some q) /\
    fle (0 + Rlog10 10)%R q = true /\ fle q (0 + Rlog10 10)%R = true.
Proof.
  apply (get_calculation_subtraction_sound (0 + Rlog10 10)%R (0 + Rlog10 10)%R
           1 999 3 (two_valued_generator 4 1)).
  - unfold get_calculation_subtraction. change (Z.to_nat 3) with 3%nat.
    eapply get_calculation_subtraction_loop_accept.
    + reflexivity.
    + reflexivity.
    + unfold in_interval; simpl. rewrite Rleb_true by lra. reflexivity.
  - discriminate.
Defined.

Lemma sample_multiplication_range (minint maxint : Z) (g g' : generator)
  (x multiplicand : Z) :
  sample_multiplication minint maxint g = Ok (x, multiplicand, g') ->
  2 <= x <= 9 /\ minint <= multiplicand <= maxint.
Proof.
  unfold sample_multiplication. intros E.
  apply bind_Ok in E as ([r1 g1] & E1 & E).
  apply bind_Ok in E as ([r2 g2] & E2 & E).
  inversion E; subst; clear E.
  split; eapply randint_range; eauto.
Qed.

Lemma get_calculation_multiplication_loop_sound {F : Type} `{PyFloat F}
  (lower upper : F) (minint maxint : Z) (trials : nat) :
  forall (g : generator) (c : calculation),
  get_calculation_multiplication_loop trials lower upper minint maxint g
  = Ok c ->
  c <> no_calculation ->
  exists (x multiplicand : Z) (q : F),
    c = (Some x, Some multiplicand, Some q) /\
    2 <= x <= 9 /\ minint <= multiplicand <= maxint /\
    q_multiplication x multiplicand = Ok (Some q) /\
    fle lower q = true /\ fle q upper = true.
Proof.
  induction trials as [|trials IH]; intros g c E NF.
  { simpl in E. inversion E; subst. contradiction. }
  cbn [get_calculation_multiplication_loop] in E.
  apply bind_Ok in E as ([[x m] g'] & ES & E).
  apply bind_Ok in E as (q & EQ & E).
  destruct (in_interval lower upper q) eqn:I.
  - inversion E; subst; clear E.
    destruct (in_interval_Some _ _ _ I) as (v & -> & L & U).
    destruct (sample_multiplication_range _ _ _ _ _ _ ES) as [R1 R2].
    exists x, m, v. repeat split; auto; lia.
  - apply (IH g' c E NF).
Qed.

(** X11: a list other than [[None, None, None]] returned by
    [get_calculation_multiplication] is [[x, multiplicand, q]] with [x] in
    [2..9], the multiplicand between [minint] and [maxint], [q] the Q-value
    of the multiplication, [lower <= q] and [q <= upper]. *)
Theorem get_calculation_multiplication_sound {F : Type} `{PyFloat F}
  (lower upper : F) (minint maxint ntrials : Z) (g : generator)
  (c : calculation) :
  get_calculation_multiplication lower upper minint maxint ntrials g = Ok c ->
  c <> no_calculation ->
  exists (x multiplicand : Z) (q : F),
    c = (Some x, Some multiplicand, Some q) /\
    2 <= x <= 9 /\ minint <= multiplicand <= maxint /\
    q_multiplication x multiplicand = Ok (Some q) /\
    fle lower q = true /\ fle q upper = true.
Proof.
  unfold get_calculation_multiplication.
  apply get_calculation_multiplication_loop_sound.
Qed.

Lemma get_calculation_multiplication_sound_witness :
  exists (x multiplicand : Z) (q : R),
    (Some 6, Some 3, Some (0 + Rlog10 27)%R)
    = (Some x, Some multiplicand, Some q) /\
    2 <= x <= 9 /\ 2 <= multiplicand <= 9999 /\
    q_multiplication x multiplicand = Ok (Some q) /\
    fle (0 + Rlog10 27)%R q = true /\ fle q (0 + Rlog10 27)%R = true.
Proof.
  apply (get_calculation_multiplication_sound (0 + Rlog10 27)%R
           (0 + Rlog10 27)%R 2 9999 3 (two_valued_generator 4 1)).
  - unfold get_calculation_multiplication. change (Z.to_nat 3) with 3%nat.
    cbn [get_calculation_multiplication_loop].
    change (sample_multiplication 2 9999 (two_valued_generator 4 1))
      with (Ok (6, 3, {| entropy := entropy (two_valued_generator 4 1);
                         cursor := 2 |})).
    simpl bind.
    change (@q_multiplication R _ 6 3) with (Ok (Some (0 + Rlog10 27)%R)).
    simpl bind. unfold in_interval; simpl.
    rewrite Rleb_true by lra. reflexivity.
  - discriminate.
Defined.

(** ** Searches that cannot draw, and searches that cannot fail to return *)

Lemma randint_empty (a b : Z) (g : generator) :
  b < a -> randint a b g = Raise ValueError.
Proof.
  intros L. unfold randint.
  replace (b <? a) with true by (symmetry; apply Z.ltb_lt; assumption).
  reflexivity.
Qed.

(** X12: with no trial to make ([ntrials <= 0]) the three searches return
    [[None, None, None]] whatever the bounds; with a trial to make and
    [maxint < minint] they raise the [ValueError] of [randint] on an empty
    range. *)
Theorem get_calculation_empty_range {F : Type} `{PyFloat F}
  (lower upper : F) (minint maxint ntrials : Z) (g : generator) :
  (ntrials <= 0 ->
   get_calculation_addition lower upper minint maxint ntrials g
   = Ok no_calculation /\
   get_calculation_subtraction lower upper minint maxint ntrials g
   = Ok no_calculation /\
   get_calculation_multiplication lower upper minint maxint ntrials g
   = Ok no_calculation) /\
  (1 <= ntrials -> maxint < minint ->
   get_calculation_addition lower upper minint maxint ntrials g
   = Raise ValueError /\
   get_calculation_subtraction lower upper minint maxint ntrials g
   = Raise ValueError /\
   get_calculation_multiplication lower upper minint maxint ntrials g
   = Raise ValueError).
Proof.
  unfold get_calculation_addition, get_calculation_subtraction,
    get_calculation_multiplication.
  split.
  - intros Hn. replace (Z.to_nat ntrials) with 0%nat by lia.
    repeat split; reflexivity.
  - intros Hn Hm.
    destruct (Z.to_nat ntrials) as [|t] eqn:T; [lia|].
    cbn [get_calculation_addition_loop get_calculation_subtraction_loop
         get_calculation_multiplication_loop].
    unfold sample_addition, sample_subtraction, sample_multiplication.
    rewrite (randint_empty minint maxint g Hm).
    repeat split; try reflexivity.
    destruct (randint_Ok 2 9 g ltac:(lia)) as (x & g1 & E).
    rewrite E; simpl bind.
    rewrite (randint_empty minint maxint g1 Hm). reflexivity.
Qed.

Lemma get_calculation_empty_range_witness :
  get_calculation_addition 0%R 1%R 9 1 20000 zero_generator
  = Raise ValueError /\
  get_calculation_subtraction 0%R 1%R 9 1 20000 zero_generator
  = Raise ValueError /\
  get_calculation_multiplication 0%R 1%R 9 1 20000 zero_generator
  = Raise ValueError.
Proof.
  apply (proj2 (get_calculation_empty_range 0%R 1%R 9 1 20000 zero_generator));
    lia.
Defined.

Lemma q_addition_no_raise {F : Type} `{PyFloat F} (n1 n2 : Z) :
  exists q : option F, q_addition n1 n2 = Ok q.
Proof.
  destruct (Z_lt_dec 0 n1) as [H1|N1]; [destruct (Z_lt_dec 0 n2) as [H2|N2]|].
  - destruct (q_addition_run (fun _ => True) (fun _ _ _ _ => I) n1 n2 H1 H2 I)
      as (Q & E & _).
    exists (Some Q); exact E.
  - exists None. unfold q_addition.
    replace (n2 >? 0) with false
      by (symmetry; rewrite Z.gtb_ltb; apply Z.ltb_ge; lia).
    rewrite andb_false_r. reflexivity.
  - exists None. unfold q_addition.
    replace (n1 >? 0) with false
      by (symmetry; rewrite Z.gtb_ltb; apply Z.ltb_ge; lia).
    reflexivity.
Qed.

Lemma q_subtraction_no_raise {F : Type} `{PyFloat F} (n1 n2 : Z) :
  exists q : option F, q_subtraction n1 n2 = Ok q.
Proof.
  destruct (Z_lt_dec 0 n2) as [H2|N2]; [destruct (Z_lt_dec n2 n1) as [H1|N1]|].
  - destruct (q_subtraction_run (fun _ => True) (fun _ _ _ _ => I) n1 n2 H2 H1 I)
      as (Q & E & _).
    exists (Some Q); exact E.
  - exists None. unfold q_subtraction.
    replace (n2 <? n1) with false by (symmetry; apply Z.ltb_ge; lia).
    rewrite andb_false_r. reflexivity.
  - exists None. unfold q_subtraction.
    replace (n2 >? 0) with false
      by (symmetry; rewrite Z.gtb_ltb; apply Z.ltb_ge; lia).
    rewrite andb_false_r. reflexivity.
Qed.

Lemma sample_subtraction_Ok (minint maxint : Z) (g : generator) :
  minint <= maxint ->
  exists n1 n2 g', sample_subtraction minint maxint g = Ok (n1, n2, g').
Proof.
  intros Hm. unfold sample_subtraction.
  destruct (randint_Ok minint maxint g Hm) as (r1 & g1 & E1).
  rewrite E1; simpl.
  pose proof (randint_range _ _ _ _ _ E1) as R1.
  destruct (randint_Ok minint r1 g1 ltac:(lia)) as (r2 & g2 & E2).
  rewrite E2; simpl. eexists; eexists; eexists; reflexivity.
Qed.

Lemma sample_multiplication_Ok (minint maxint : Z) (g : generator) :
  minint <= maxint ->
  exists x m g', sample_multiplication minint maxint g = Ok (x, m, g').
Proof.
  intros Hm. unfold sample_multiplication.
  destruct (randint_Ok 2 9 g ltac:(lia)) as (r1 & g1 & E1).
  rewrite E1; simpl.
  destruct (randint_Ok minint maxint g1 Hm) as (r2 & g2 & E2).
  rewrite E2; simpl. eexists; eexists; eexists; reflexivity.
Qed.

(** X13: with [minint <= maxint] the searches for an addition and for a
    subtraction raise nothing, whatever the integers [minint], [maxint] and
    [ntrials] and whatever is drawn: operands outside the domain give
    [None], which the interval test rejects.  The search for a
    multiplication raises nothing when moreover [0 <= minint]. *)
Theorem get_calculation_no_raise {F : Type} `{PyFloat F}
  (lower upper : F) (minint maxint ntrials : Z) (g : generator) :
  minint <= maxint ->
  (exists c,
     get_calculation_addition lower upper minint maxint ntrials g = Ok c) /\
  (exists c,
     get_calculation_subtraction lower upper minint maxint ntrials g = Ok c) /\
  (0 <= minint ->
   exists c,
     get_calculation_multiplication lower upper minint maxint ntrials g = Ok c).
Proof.
  intros Hm.
  unfold get_calculation_addition, get_calculation_subtraction,
    get_calculation_multiplication.
  generalize (Z.to_nat ntrials) as trials. intros trials.
  split; [|split].
  - revert g. induction trials as [|t IH]; intros g.
    + eexists; reflexivity.
    + cbn [get_calculation_addition_loop].
      destruct (sample_addition_Ok minint maxint g Hm) as (n1 & n2 & g' & E).
      rewrite E; simpl bind.
      destruct (q_addition_no_raise n1 n2) as (q & EQ).
      rewrite EQ; simpl bind.
      destruct (in_interval lower upper q); [eexists; reflexivity | apply IH].
  - revert g. induction trials as [|t IH]; intros g.
    + eexists; reflexivity.
    + cbn [get_calculation_subtraction_loop].
      destruct (sample_subtraction_Ok minint maxint g Hm) as (n1 & n2 & g' & E).
      rewrite E; simpl bind.
      destruct (q_subtraction_no_raise n1 n2) as (q & EQ).
      rewrite EQ; simpl bind.
      destruct (in_interval lower upper q); [eexists; reflexivity | apply IH].
  - intros H0. revert g. induction trials as [|t IH]; intros g.
    + eexists; reflexivity.
    + cbn [get_calculation_multiplication_loop].
      destruct (sample_multiplication_Ok minint maxint g Hm)
        as (x & m & g' & E).
      rewrite E; simpl bind.
      destruct (sample_multiplication_range _ _ _ _ _ _ E) as [Rx Rm].
      destruct (q_multiplication_run x m Rx ltac:(lia)) as (Q & EQ).
      rewrite EQ; simpl bind.
      destruct (in_interval lower upper (Some Q));
        [eexists; reflexivity | apply IH].
Qed.

Lemma get_calculation_no_raise_witness :
  exists c,
    get_calculation_subtraction 0%R 1%R (-5) 999 20000 zero_generator = Ok c.
Proof.
  apply (proj1 (proj2 (get_calculation_no_raise 0%R 1%R (-5) 999 20000
                         zero_generator ltac:(lia)))).
Defined.

(** ** When the search for an addition fails, and when it does not *)

Lemma candidate_addition_S (k : nat) (minint maxint : Z) (g g' : generator)
  (n1 n2 : Z) :
  sample_addition minint maxint g = Ok (n1, n2, g') ->
  candidate_addition (S k) minint maxint g
  = candidate_addition k minint maxint g'.
Proof.
  intros E. cbn [candidate_addition]. rewrite E. reflexivity.
Qed.

Lemma get_calculation_addition_loop_failure {F : Type} `{PyFloat F}
  (lower upper : F) (minint maxint : Z) (trials : nat) :
  forall g : generator,
  get_calculation_addition_loop trials lower upper minint maxint g
  = Ok no_calculation ->
  forall j, (j < trials)%nat ->
    exists (m1 m2 : Z) (qj : option F),
      candidate_addition j minint maxint g = Ok (m1, m2) /\
      q_addition m1 m2 = Ok qj /\
      in_interval lower upper qj = false.
Proof.
  induction trials as [|trials IH]; intros g E j Hj; [lia|].
  cbn [get_calculation_addition_loop] in E.
  apply bind_Ok in E as ([[n1 n2] g'] & ES & E).
  apply bind_Ok in E as (q & EQ & E).
  destruct (in_interval lower upper q) eqn:I; [discriminate|].
  destruct j as [|j].
  - exists n1, n2, q. cbn [candidate_addition]. rewrite ES. auto.
  - rewrite (candidate_addition_S j _ _ _ _ _ _ ES).
    apply (IH g' E j). lia.
Qed.

Lemma get_calculation_addition_loop_found {F : Type} `{PyFloat F}
  (lower upper : F) (minint maxint : Z) (k : nat) :
  forall (trials : nat) (g : generator) (n1 n2 : Z) (q : option F),
  (k < trials)%nat ->
  candidate_addition k minint maxint g = Ok (n1, n2) ->
  q_addition n1 n2 = Ok q ->
  in_interval lower upper q = true ->
  (forall j, (j < k)%nat ->
     exists (m1 m2 : Z) (qj : option F),
       candidate_addition j minint maxint g = Ok (m1, m2) /\
       q_addition m1 m2 = Ok qj /\
       in_interval lower upper qj = false) ->
  get_calculation_addition_loop trials lower upper minint maxint g
  = Ok (Some n1, Some n2, q).
Proof.
  induction k as [|k IH]; intros trials g n1 n2 q Hk EC EQ I Before;
    (destruct trials as [|trials]; [lia|]).
  - cbn [candidate_addition] in EC.
    apply bind_Ok in EC as ([[a1 a2] g'] & ES & EC).
    inversion EC; subst; clear EC.
    eapply get_calculation_addition_loop_accept; eauto.
  - destruct (Before 0%nat ltac:(lia)) as (m1 & m2 & q0 & C0 & Q0 & I0).
    cbn [candidate_addition] in C0.
    apply bind_Ok in C0 as ([[a1 a2] g'] & ES & C0).
    inversion C0; subst; clear C0.
    cbn [get_calculation_addition_loop].
    rewrite ES; simpl bind. rewrite Q0; simpl bind. rewrite I0.
    rewrite (candidate_addition_S k _ _ _ _ _ _ ES) in EC.
    apply (IH trials g' n1 n2 q ltac:(lia) EC EQ I).
    intros j Hj. destruct (Before (S j) ltac:(lia)) as (b1 & b2 & qj & C & Hq & Hi).
    rewrite (candidate_addition_S j _ _ _ _ _ _ ES) in C.
    exists b1, b2, qj. auto.
Qed.

(** X14: [get_calculation_addition] returns [[None, None, None]] only when
    each of the [ntrials] rounds drew operands whose Q-value is outside the
    interval or [None]; and if the operands of round [k < ntrials] have a
    Q-value in the interval while those of the rounds before were rejected,
    it returns these operands and their Q-value. *)
Theorem get_calculation_addition_complete {F : Type} `{PyFloat F}
  (lower upper : F) (minint maxint ntrials : Z) (g : generator) :
  (get_calculation_addition lower upper minint maxint ntrials g
   = Ok no_calculation ->
   forall j, (j < Z.to_nat ntrials)%nat ->
     exists (m1 m2 : Z) (qj : option F),
       candidate_addition j minint maxint g = Ok (m1, m2) /\
       q_addition m1 m2 = Ok qj /\
       in_interval lower upper qj = false) /\
  (forall (k : nat) (n1 n2 : Z) (q : option F),
     (k < Z.to_nat ntrials)%nat ->
     candidate_addition k minint maxint g = Ok (n1, n2) ->
     q_addition n1 n2 = Ok q ->
     in_interval lower upper q = true ->
     (forall j, (j < k)%nat ->
        exists (m1 m2 : Z) (qj : option F),
          candidate_addition j minint maxint g = Ok (m1, m2) /\
          q_addition m1 m2 = Ok qj /\
          in_interval lower upper qj = false) ->
     get_calculation_addition lower upper minint maxint ntrials g
     = Ok (Some n1, Some n2, q)).
Proof.
  unfold get_calculation_addition. split.
  - apply get_calculation_addition_loop_failure.
  - intros k n1 n2 q. apply get_calculation_addition_loop_found.
Qed.

Lemma get_calculation_addition_complete_witness :
  get_calculation_addition 0%R 0%R 1 10 5 (two_valued_generator 9 0)
  = Ok (Some 10, Some 1, Some 0%R).
Proof.
  apply (proj2 (get_calculation_addition_complete 0%R 0%R 1 10 5
                  (two_valued_generator 9 0)) 0%nat 10 1 (Some 0%R)).
  - change (Z.to_nat 5) with 5%nat. lia.
  - reflexivity.
  - reflexivity.
  - unfold in_interval; simpl. rewrite Rleb_true by lra. reflexivity.
  - intros j Hj. lia.
Defined.

(** ** Subtractions never have the Q-value 0 *)

(** [str] of a positive integer starts with a digit that is not 0. *)
Lemma to_uint_head (p : positive) (u : Decimal.uint) :
  Pos.to_uint p <> Decimal.D0 u.
Proof.
  intros E.
  pose proof (DecimalPos.Unsigned.to_of (Pos.to_uint p)) as T.
  rewrite DecimalPos.Unsigned.of_to in T. simpl in T.
  rewrite E in T. rewrite DecimalFacts.unorm_D0 in T.
  destruct u as [|u|u|u|u|u|u|u|u|u|u].
  1: { apply (DecimalPos.Unsigned.to_uint_nonzero p). exact E. }
  all: match type of T with
       | _ = Decimal.unorm ?w =>
           pose proof (DecimalFacts.nb_digits_unorm w ltac:(discriminate)) as N
       end;
       rewrite <- T in N; simpl in N; lia.
Qed.

Lemma str_first_digit (n : Z) :
  0 < n -> exists v, digit_at (str n) 0 = Ok v /\ 1 <= v <= 9.
Proof.
  intros Hn. destruct n as [|p|p]; try lia.
  unfold str. simpl. pose proof (to_uint_head p) as NZ.
  destruct (Pos.to_uint p) eqn:E; simpl.
  - exfalso. apply (DecimalPos.Unsigned.to_uint_nonnil p). exact E.
  - exfalso. apply (NZ u). reflexivity.
  - exists 1. split; [reflexivity | lia].
  - exists 2. split; [reflexivity | lia].
  - exists 3. split; [reflexivity | lia].
  - exists 4. split; [reflexivity | lia].
  - exists 5. split; [reflexivity | lia].
  - exists 6. split; [reflexivity | lia].
  - exists 7. split; [reflexivity | lia].
  - exists 8. split; [reflexivity | lia].
  - exists 9. split; [reflexivity | lia].
Qed.

(** The second aligned operand is [str n2] behind zeros. *)
Lemma align_snd_padded (n1 n2 : Z) (s1 s2 : pystr) (length : nat) :
  0 <= n2 -> align n1 n2 = (s1, s2, length) ->
  s2 = repeat "0"%char (length - len (str n2)) ++ str n2 /\
  (len (str n2) <= length)%nat.
Proof.
  intros H2. unfold align.
  destruct (len (str n1) =? len (str n2))%nat eqn:E; simpl;
    intros X; inversion X; subst; clear X.
  - apply Nat.eqb_eq in E. split; [|lia].
    replace (Nat.max (len (str n1)) (len (str n2)) - len (str n2))%nat
      with 0%nat by lia.
    reflexivity.
  - split; [|lia]. apply zfill_digits_eq, str_digits. assumption.
Qed.

(** A round of the subtraction on a digit [d2] that is not 0 is not
    skipped. *)
Lemma q_subtraction_step_nonzero {F : Type} `{PyFloat F} (s1 s2 : pystr)
  (Q : F) (carry : Z) (d : nat) (d1 d2 : Z) :
  digit_at s1 d = Ok d1 -> digit_at s2 d = Ok d2 -> 1 <= d2 ->
  carry = 0 \/ carry = 1 ->
  exists (a c' : Z),
    q_subtraction_step s1 s2 (Q, carry) d = Ok (fadd Q (flog10 a), c') /\
    2 <= a <= 29 /\ (c' = 0 \/ c' = 1).
Proof.
  intros E1 E2 N2 Hc.
  pose proof (digit_at_range _ _ _ E1) as B1.
  pose proof (digit_at_range _ _ _ E2) as B2.
  unfold q_subtraction_step. rewrite E1, E2; simpl bind.
  replace (d2 =? 0) with false by (symmetry; apply Z.eqb_neq; lia).
  simpl andb. cbv iota.
  destruct (d1 - d2 - carry >=? 0) eqn:C; bool_facts.
  - log10_defined.
    eexists; eexists; split; [reflexivity | split; [lia | auto]].
  - rewrite Z.geb_leb in C. apply Z.leb_gt in C.
    rewrite (proj2 (Z.ltb_lt _ _) C). log10_defined.
    eexists; eexists; split; [reflexivity | split; [lia | auto]].
Qed.

Lemma range_down_split (length p : nat) :
  (p < length)%nat ->
  range_down length
  = rev (seq (S p) (length - S p)) ++ [p] ++ rev (seq 0 p).
Proof.
  intros Hp. unfold range_down.
  replace length with (p + S (length - S p))%nat at 1 by lia.
  rewrite seq_app. simpl seq. rewrite rev_app_distr. simpl rev.
  rewrite <- app_assoc. reflexivity.
Qed.

Lemma q_subtraction_at_least_log10_2 (n1 n2 : Z) :
  0 < n2 -> n2 < n1 ->
  exists Q : R, q_subtraction n1 n2 = Ok (Some Q) /\ (Rlog10 2 <= Q)%R.
Proof.
  intros H2 H1. unfold q_subtraction.
  replace (negb ((n1 >? 0) && (n2 >? 0) && (n2 <? n1))) with false
    by (symmetry; apply negb_false_iff; repeat (apply andb_true_intro; split);
        [apply Z.gtb_lt | apply Z.gtb_lt | apply Z.ltb_lt]; lia).
  destruct (align n1 n2) as [[s1 s2] length] eqn:A.
  destruct (align_digits n1 n2 s1 s2 length ltac:(lia) ltac:(lia) A)
    as (D1 & D2 & L1 & L2).
  destruct (align_snd_padded n1 n2 s1 s2 length ltac:(lia) A) as [P2 Ple].
  pose proof (str_nonempty n2 ltac:(lia)) as NE.
  set (p := (length - len (str n2))%nat) in *.
  assert (Hp : (p < length)%nat) by (subst p; lia).
  destruct (str_first_digit n2 H2) as (v & Ev & Bv).
  assert (E2 : digit_at s2 p = Ok v).
  { rewrite P2. unfold digit_at, getitem in *.
    rewrite nth_error_app2 by (rewrite repeat_length; lia).
    rewrite repeat_length, Nat.sub_diag. exact Ev. }
  destruct (digit_at_digits s1 p D1 ltac:(lia)) as (d1 & E1 & _).
  rewrite (range_down_split length p Hp), !for_each_app.
  assert (Nonneg : forall (Q : R) (a : Z), (0 <= Q)%R -> 1 <= a ->
                     (0 <= fadd Q (flog10 a))%R).
  { intros Q a HQ Ha. simpl. pose proof (Rlog10_nonneg a Ha). lra. }
  assert (Keeps : forall (Q : R) (a : Z), (Rlog10 2 <= Q)%R -> 1 <= a ->
                    (Rlog10 2 <= fadd Q (flog10 a))%R).
  { intros Q a HQ Ha. simpl. pose proof (Rlog10_nonneg a Ha). lra. }
  destruct (for_each_invariant (bit_state (fun Q : R => (0 <= Q)%R))
              (fun d => (d < length)%nat) (q_subtraction_step s1 s2))
    with (xs := rev (seq (S p) (length - S p))) (st := (0%R, 0))
    as ([Q1 c1] & F1 & I1 & B1).
  { intros st d Hs Hd. apply (q_subtraction_step_ok _ Nonneg); auto; lia. }
  { apply Forall_rev, Forall_forall. intros d Hd. apply in_seq in Hd. lia. }
  { split; simpl; [lra | auto]. }
  change (@of_int R PyFloat_R 0) with 0%R. rewrite F1.
  simpl in I1, B1.
  destruct (q_subtraction_step_nonzero s1 s2 Q1 c1 p d1 v E1 E2 ltac:(lia) B1)
    as (a & c' & Es & Ba & Bc).
  cbn [bind app for_each]. rewrite Es. cbn [bind].
  destruct (for_each_invariant (bit_state (fun Q : R => (Rlog10 2 <= Q)%R))
              (fun d => (d < length)%nat) (q_subtraction_step s1 s2))
    with (xs := rev (seq 0 p)) (st := (fadd Q1 (flog10 a), c'))
    as ([Q3 c3] & F3 & I3 & _).
  { intros st d Hs Hd. apply (q_subtraction_step_ok _ Keeps); auto; lia. }
  { apply Forall_rev, Forall_forall. intros d Hd. apply in_seq in Hd. lia. }
  { split; [|exact Bc]. simpl.
    pose proof (Rlog10_le 2 a ltac:(lia)). lra. }
  rewrite F3. cbn [bind]. exists Q3. split; [reflexivity | exact I3].
Qed.

(** X15: inside its domain [q_subtraction] returns at least [log10 2]: the
    leading digit of [n2] is not 0, so its round is never skipped.  Unlike
    an addition, a subtraction never has the Q-value 0. *)
Theorem q_subtraction_positive (n1 n2 : Z) :
  0 < n2 -> n2 < n1 ->
  exists Q : R,
    q_subtraction n1 n2 = Ok (Some Q) /\ (Rlog10 2 <= Q)%R /\ (0 < Q)%R.
Proof.
  intros H2 H1.
  destruct (q_subtraction_at_least_log10_2 n1 n2 H2 H1) as (Q & E & B).
  exists Q. pose proof Rlog10_2_pos. repeat split; [exact E | exact B | lra].
Qed.

Lemma q_subtraction_positive_witness :
  exists Q : R,
    q_subtraction 100 1 = Ok (Some Q) /\ (Rlog10 2 <= Q)%R /\ (0 < Q)%R.
Proof.
  apply (q_subtraction_positive 100 1); lia.
Defined.

(** ** Intervals no subtraction or multiplication reaches *)

(** X16: when [upper] is below [log10 2] (for instance when the interval is
    [0..0]) and [minint <= maxint], [get_calculation_subtraction] returns
    [[None, None, None]] whatever is drawn and whatever the number of
    trials, and so does [get_calculation_multiplication] when moreover
    [0 <= minint]. *)
Theorem get_calculation_below_log10_2 (lower upper : R)
  (minint maxint ntrials : Z) (g : generator) :
  (upper < Rlog10 2)%R -> minint <= maxint ->
  get_calculation_subtraction lower upper minint maxint ntrials g
  = Ok no_calculation /\
  (0 <= minint ->
   get_calculation_multiplication lower upper minint maxint ntrials g
   = Ok no_calculation).
Proof.
  intros U Hm.
  unfold get_calculation_subtraction, get_calculation_multiplication.
  generalize (Z.to_nat ntrials) as trials. intros trials.
  split.
  - revert g. induction trials as [|t IH]; intros g; [reflexivity|].
    cbn [get_calculation_subtraction_loop].
    destruct (sample_subtraction_Ok minint maxint g Hm) as (n1 & n2 & g' & E).
    rewrite E; cbn [bind].
    destruct (@q_subtraction_no_raise R _ n1 n2) as ([q|] & EQ);
      rewrite EQ; cbn [bind].
    + destruct (q_subtraction_Some_domain _ _ _ EQ) as (P1 & P2 & P3).
      destruct (q_subtraction_at_least_log10_2 n1 n2 P2 P3) as (Q & EQ' & B).
      assert (q = Q) by congruence. subst q.
      unfold in_interval; simpl.
      rewrite (Rleb_false Q upper) by lra. rewrite andb_false_r. apply IH.
    + unfold in_interval; simpl. apply IH.
  - intros H0. revert g. induction trials as [|t IH]; intros g; [reflexivity|].
    cbn [get_calculation_multiplication_loop].
    destruct (sample_multiplication_Ok minint maxint g Hm) as (x & m & g' & E).
    rewrite E; cbn [bind].
    destruct (sample_multiplication_range _ _ _ _ _ _ E) as [Rx Rm].
    destruct (q_multiplication_range_R x m Rx ltac:(lia))
      as (Q & EQ & [B _] & _).
    rewrite EQ; cbn [bind].
    pose proof (str_nonempty m ltac:(lia)) as NE.
    apply le_INR in NE. simpl in NE. pose proof Rlog10_2_pos.
    unfold in_interval; simpl.
    rewrite (Rleb_false Q upper) by nra. rewrite andb_false_r. apply IH.
Qed.

Lemma get_calculation_below_log10_2_witness :
  get_calculation_subtraction 0%R 0%R 1 999 20000 zero_generator
  = Ok no_calculation.
Proof.
  apply (get_calculation_below_log10_2 0%R 0%R 1 999 20000 zero_generator
           Rlog10_2_pos ltac:(lia)).
Defined.

(** ** The additions whose Q-value is 0 *)

(** An invariant that knows the rounds already made. *)
Lemma for_each_prefix {S A : Type} (Inv : list A -> S -> Prop)
  (P : A -> Prop) (body : S -> A -> result S) :
  (forall pre st x, Inv pre st -> P x ->
     exists st', body st x = Ok st' /\ Inv (pre ++ [x]) st') ->
  forall xs pre st, Forall P xs -> Inv pre st ->
  exists st', for_each xs body st = Ok st' /\ Inv (pre ++ xs) st'.
Proof.
  intros Hbody xs; induction xs as [|x xs IH]; intros pre st HP Hst; simpl.
  - exists st. rewrite app_nil_r. auto.
  - inversion HP as [|? ? Hx Hxs]; subst.
    destruct (Hbody pre st x Hst Hx) as (st1 & E1 & I1).
    rewrite E1; simpl.
    destruct (IH (pre ++ [x]) st1 Hxs I1) as (st2 & E2 & I2).
    exists st2. split; [exact E2|].
    rewrite <- app_assoc in I2. exact I2.
Qed.

Lemma forallb_over_map {A B : Type} (f : B -> bool) (g : A -> B)
  (l : list A) :
  forallb f (map g l) = forallb (fun x => f (g x)) l.
Proof.
  induction l as [|x l IH]; simpl; [reflexivity | rewrite IH; reflexivity].
Qed.

Lemma q_addition_zero_iff_R (n1 n2 : Z) :
  0 < n1 -> 0 < n2 ->
  exists Q : R,
    q_addition n1 n2 = Ok (Some Q) /\
    (zero_in_each_pair n1 n2 = true -> Q = 0%R) /\
    (zero_in_each_pair n1 n2 = false -> (Rlog10 4 <= Q)%R).
Proof.
  intros H1 H2. unfold q_addition.
  replace (negb ((n1 >? 0) && (n2 >? 0))) with false
    by (symmetry; apply negb_false_iff, andb_true_intro; split;
        apply Z.gtb_lt; lia).
  destruct (align n1 n2) as [[s1 s2] length] eqn:A.
  destruct (align_digits n1 n2 s1 s2 length ltac:(lia) ltac:(lia) A)
    as (D1 & D2 & L1 & L2).
  set (zp := fun p : result Z * result Z =>
               match p with
               | (Ok d1, Ok d2) => (d1 =? 0) || (d2 =? 0)
               | _ => false
               end).
  set (at_ := fun d : nat => (digit_at s1 d, digit_at s2 d)).
  destruct (for_each_prefix
              (fun (pre : list nat) (st : R * Z) =>
                 (st = (0%R, 0) /\ Forall (fun d => zp (at_ d) = true) pre) \/
                 ((Rlog10 4 <= fst st)%R /\ (snd st = 0 \/ snd st = 1) /\
                  Exists (fun d => zp (at_ d) = false) pre))
              (fun d => (d < length)%nat) (q_addition_step s1 s2))
    with (xs := range_down length) (pre := @nil nat) (st := (0%R, 0))
    as ([Q c] & E & I).
  - intros pre [Q c] d I Hd.
    destruct (digit_at_digits s1 d D1 ltac:(lia)) as (d1 & E1 & B1).
    destruct (digit_at_digits s2 d D2 ltac:(lia)) as (d2 & E2 & B2).
    destruct I as [[Est Hall] | (HQ & Hc & Hex)].
    + inversion Est; subst Q c; clear Est.
      unfold q_addition_step. rewrite E1, E2; cbn [bind].
      destruct ((d1 =? 0) || (d2 =? 0)) eqn:Z0; simpl andb; cbv iota.
      * eexists; split; [reflexivity|]. left. split; [reflexivity|].
        apply Forall_app; split; [assumption|].
        constructor; [|constructor]. unfold at_, zp. rewrite E1, E2. exact Z0.
      * apply orb_false_iff in Z0 as [N1 N2].
        apply Z.eqb_neq in N1, N2.
        assert (Hex : Exists (fun d => zp (at_ d) = false) (pre ++ [d])).
        { apply Exists_app. right. constructor. unfold at_, zp.
          rewrite E1, E2. apply orb_false_iff. split; apply Z.eqb_neq; lia. }
        destruct (d1 + d2 + 0 <? 10); log10_defined;
          (eexists; split; [reflexivity|]; right; simpl;
           split; [|split; [auto | exact Hex]]).
        -- pose proof (Rlog10_le 4 (d1 + d2 + d1 + d2 + 0) ltac:(lia)). lra.
        -- pose proof (Rlog10_le 4 (d1 + d2 + d1 + d2 + 10 + 0) ltac:(lia)).
           lra.
    + simpl in HQ, Hc.
      assert (Hex' : Exists (fun d => zp (at_ d) = false) (pre ++ [d]))
        by (apply Exists_app; left; exact Hex).
      destruct (q_addition_step_shape s1 s2 Q c d D1 D2 ltac:(lia) ltac:(lia) Hc)
        as [Es | (a & c' & Es & Ba & Hc')]; rewrite Es.
      * eexists; split; [reflexivity|]. right. simpl. auto.
      * eexists; split; [reflexivity|]. right. simpl.
        pose proof (Rlog10_nonneg a ltac:(lia)).
        split; [lra | auto].
  - apply range_down_lt.
  - left. split; [reflexivity | constructor].
  - change (@of_int R PyFloat_R 0) with 0%R. rewrite E. cbn [bind].
    exists Q. split; [reflexivity|]. simpl app in I.
    assert (Zeq : zero_in_each_pair n1 n2
                  = forallb (fun d => zp (at_ d)) (seq 0 length)).
    { unfold zero_in_each_pair, digit_pairs. rewrite A.
      fold zp. fold at_. rewrite forallb_over_map. reflexivity. }
    rewrite Zeq. split.
    + intros T. destruct I as [[Est _] | (_ & _ & Hex)].
      * inversion Est; reflexivity.
      * exfalso. apply Exists_exists in Hex as (d & Hin & Hd).
        unfold range_down in Hin. apply in_rev in Hin.
        rewrite (proj1 (forallb_forall _ _) T d Hin) in Hd. discriminate.
    + intros T. destruct I as [[_ Hall] | (HQ & _ & _)]; [|exact HQ].
      exfalso.
      assert (T' : forallb (fun d => zp (at_ d)) (seq 0 length) = true).
      { apply forallb_forall. intros d Hin.
        apply (proj1 (Forall_forall _ _) Hall). unfold range_down.
        apply in_rev. rewrite rev_involutive. exact Hin. }
      congruence.
Qed.

(** X17: for [n1 > 0] and [n2 > 0] the Q-value of the addition is 0 exactly
    when every position of the aligned operands holds a 0 in [n1] or in
    [n2]; otherwise it is at least [log10 4]. *)
Theorem q_addition_zero_iff (n1 n2 : Z) :
  0 < n1 -> 0 < n2 ->
  exists Q : R,
    q_addition n1 n2 = Ok (Some Q) /\
    (Q = 0%R <-> zero_in_each_pair n1 n2 = true) /\
    (zero_in_each_pair n1 n2 = false -> (Rlog10 4 <= Q)%R).
Proof.
  intros H1 H2.
  destruct (q_addition_zero_iff_R n1 n2 H1 H2) as (Q & E & T & N).
  exists Q. split; [exact E|]. split; [split|exact N].
  - intros EQ. destruct (zero_in_each_pair n1 n2) eqn:Z0; [reflexivity|].
    pose proof (N eq_refl). pose proof Rlog10_4_pos. lra.
  - exact T.
Qed.

Lemma q_addition_zero_iff_witness :
  exists Q : R,
    q_addition 11 1 = Ok (Some Q) /\
    (Q = 0%R <-> zero_in_each_pair 11 1 = true) /\
    (zero_in_each_pair 11 1 = false -> (Rlog10 4 <= Q)%R).
Proof.
  apply (q_addition_zero_iff 11 1); lia.
Defined.
